(** * io-functions: the request-authorization pipeline of the Services API

    A shallow embedding of
    - [lib/utils/middlewares/azure_api_auth.ts] (identity middleware),
    - [lib/controllers/adm/services.ts] (payload middleware, handlers,
      conversion of a stored service to its public form),
    together with the collaborators these files import and that the
    specification describes: the middleware combinator, the
    service-attributes middleware and the source-IP gate.

    Asynchronous code is modelled as a program that issues calls to its
    environment (the request object, the service model) and continues with
    the answers; running a program against a host yields its result, the
    final state of the host and the list of calls it made, in order. *)

From Stdlib Require Import ZArith List Ascii String.
From stdpp Require Import base option list strings gmap sets.

Open Scope string_scope.
Open Scope Z_scope.
Open Scope list_scope.

(** ** Either and Option, as the code uses them *)

Inductive Either (L R : Type) : Type :=
| Left (value : L)
| Right (value : R).
Arguments Left {L R} value.
Arguments Right {L R} value.

Definition isLeft {L R} (e : Either L R) : bool :=
  match e with Left _ => true | Right _ => false end.

Definition isRight {L R} (e : Either L R) : bool :=
  match e with Left _ => false | Right _ => true end.

(** [Option.filter] of ts-option. *)
Definition option_filter {A} (p : A -> bool) (o : option A) : option A :=
  match o with
  | Some a => if p a then Some a else None
  | None => None
  end.

(** ** Strings *)

(** [String.prototype.split] with a one-character separator: the empty
    string splits into one empty token, and no token is trimmed. *)
Fixpoint split (sep : ascii) (s : string) : list string :=
  match s with
  | EmptyString => [EmptyString]
  | String c rest =>
      if Ascii.eqb c sep then EmptyString :: split sep rest
      else match split sep rest with
           | [] => [String c EmptyString]
           | tok :: toks => String c tok :: toks
           end
  end.

(** Modelled from the spec: [toNonEmptyString] of [lib/utils/strings],
    which is not among the sources; a header that is missing or empty
    yields no value, any other string is kept as it is. *)
Definition toNonEmptyString (s : option string) : option string :=
  option_filter (fun v => negb (String.eqb v "")) s.

(** [Array.prototype.findIndex]: the index of the first element that
    satisfies the predicate, [-1] when there is none. *)
Fixpoint findIndex_from {A} (p : A -> bool) (l : list A) (i : Z) : Z :=
  match l with
  | [] => -1
  | x :: rest => if p x then i else findIndex_from p rest (i + 1)
  end.

Definition findIndex {A} (p : A -> bool) (l : list A) : Z :=
  findIndex_from p l 0.

(** ** Responses

    Modelled from the spec: the response kinds of [lib/utils/response]
    (section 6 of the specification); the file is not among the sources. *)

Inductive IResponseError : Type :=
| ResponseErrorForbiddenAnonymousUser
| ResponseErrorForbiddenNoAuthorizationGroups
| ResponseErrorForbiddenNotAuthorized
| ResponseErrorValidation (title detail : string)
| ResponseErrorNotFound (title detail : string)
| ResponseErrorQuery (detail error : string)
| ResponseErrorInternal (detail : string).

Inductive IResponse (T : Type) : Type :=
| ResponseError (e : IResponseError)
| ResponseSuccessJson (payload : T).
Arguments ResponseError {T} e.
Arguments ResponseSuccessJson {T} payload.

(** The [kind] tag of an error response. *)
Definition kind (e : IResponseError) : string :=
  match e with
  | ResponseErrorForbiddenAnonymousUser => "IResponseErrorForbiddenAnonymousUser"
  | ResponseErrorForbiddenNoAuthorizationGroups =>
      "IResponseErrorForbiddenNoAuthorizationGroups"
  | ResponseErrorForbiddenNotAuthorized => "IResponseErrorForbiddenNotAuthorized"
  | ResponseErrorValidation _ _ => "IResponseErrorValidation"
  | ResponseErrorNotFound _ _ => "IResponseErrorNotFound"
  | ResponseErrorQuery _ _ => "IResponseErrorQuery"
  | ResponseErrorInternal _ => "IResponseErrorInternal"
  end.

(** ** Services *)

(** [IService] of [lib/models/service]: the two authorization lists are
    sets of strings. *)
Record IService : Type := {
  authorizedCIDRs : gset string;
  authorizedRecipients : gset string;
  departmentName : string;
  organizationName : string;
  serviceId : string;
  serviceName : string
}.

(** [IRetrievedService]: a stored service, with the document id and the
    version the storage adds. *)
Record IRetrievedService : Type := {
  rs_id : string;
  rs_version : Z;
  rs_authorizedCIDRs : gset string;
  rs_authorizedRecipients : gset string;
  rs_departmentName : string;
  rs_organizationName : string;
  rs_serviceId : string;
  rs_serviceName : string
}.

(** [Service] of [lib/api/definitions/Service]: the public form. *)
Record Service : Type := {
  authorized_cidrs : list string;
  authorized_recipients : list string;
  department_name : string;
  id : option string;
  organization_name : string;
  service_id : string;
  service_name : string;
  version : option Z
}.

(** [request.body]: either an object with the fields of a [Service] at
    their JSON types, or any other value. *)
Inductive RequestBody : Type :=
| BodyObject (o : Service)
| BodyOther.

(** ** Programs over the environment *)

(** The calls a middleware or a handler makes: reads of the request, the
    operations of the service model, and [Invoke], the record a spy leaves
    when the function it wraps is called. *)
Inductive Op : Type :=
| Header (name : string)
| Body
| FindOneByServiceId (id : string)
| Create (service : IService) (partitionKey : string)
| Update (documentId partitionKey : string)
         (f : IRetrievedService -> IRetrievedService)
| Invoke (label : string).

(** What the environment answers to each call. *)
Definition Ans (o : Op) : Type :=
  match o with
  | Header _ => option string
  | Body => RequestBody
  | FindOneByServiceId _ => Either string (option IRetrievedService)
  | Create _ _ => Either string IRetrievedService
  | Update _ _ _ => Either string (option IRetrievedService)
  | Invoke _ => unit
  end.

Inductive Prog (R : Type) : Type :=
| Ret (r : R)
| Vis (o : Op) (k : Ans o -> Prog R).
Arguments Ret {R} r.
Arguments Vis {R} o k.

Fixpoint bind {A B} (p : Prog A) (f : A -> Prog B) : Prog B :=
  match p with
  | Ret a => f a
  | Vis o k => Vis o (fun x => bind (k x) f)
  end.

Declare Scope prog_scope.
Delimit Scope prog_scope with prog.
Notation "x <- c1 ;; c2" := (bind c1 (fun x => c2))
  (at level 100, c1 at next level, right associativity) : prog_scope.
Open Scope prog_scope.

Definition header (name : string) : Prog (option string) :=
  Vis (Header name) Ret.
Definition body : Prog RequestBody :=
  Vis Body Ret.
Definition findOneByServiceId (id : string)
  : Prog (Either string (option IRetrievedService)) :=
  Vis (FindOneByServiceId id) Ret.
Definition create (service : IService) (partitionKey : string)
  : Prog (Either string IRetrievedService) :=
  Vis (Create service partitionKey) Ret.
Definition update (documentId partitionKey : string)
    (f : IRetrievedService -> IRetrievedService)
  : Prog (Either string (option IRetrievedService)) :=
  Vis (Update documentId partitionKey f) Ret.

(** A spy around a function: it records the call, then runs the function. *)
Definition spy {A R} (label : string) (f : A -> Prog R) : A -> Prog R :=
  fun a => Vis (Invoke label) (fun _ => f a).

(** The host of a request: the request object and the service model over
    a storage state [W]. Reading the request leaves the storage as it is. *)
Record Host (W : Type) : Type := {
  request_header : string -> option string;
  request_body : RequestBody;
  model_findOneByServiceId :
    string -> W -> Either string (option IRetrievedService) * W;
  model_create :
    IService -> string -> W -> Either string IRetrievedService * W;
  model_update :
    string -> string -> (IRetrievedService -> IRetrievedService) -> W ->
    Either string (option IRetrievedService) * W
}.
Arguments request_header {W} h name.
Arguments request_body {W} h.
Arguments model_findOneByServiceId {W} h id w.
Arguments model_create {W} h service partitionKey w.
Arguments model_update {W} h documentId partitionKey f w.

Definition answer {W} (h : Host W) (o : Op) : W -> Ans o * W :=
  match o return W -> Ans o * W with
  | Header name => fun w => (request_header h name, w)
  | Body => fun w => (request_body h, w)
  | FindOneByServiceId i => model_findOneByServiceId h i
  | Create s pk => model_create h s pk
  | Update d pk f => model_update h d pk f
  | Invoke _ => fun w => (tt, w)
  end.

Record Outcome (R W : Type) : Type := {
  result : R;
  world : W;
  calls : list Op
}.
Arguments result {R W} o.
Arguments world {R W} o.
Arguments calls {R W} o.

Fixpoint run {W R} (h : Host W) (p : Prog R) (w : W) : Outcome R W :=
  match p with
  | Ret r => {| result := r; world := w; calls := [] |}
  | Vis o k =>
      let '(a, w1) := answer h o w in
      let out := run h (k a) w1 in
      {| result := result out; world := world out; calls := o :: calls out |}
  end.

(** A request middleware: a program that yields a failure or a value. The
    request is not an argument: it is the one the host serves. *)
Definition IRequestMiddleware (R T : Type) : Type := Prog (Either R T).

(** ** Identity middleware: [lib/utils/middlewares/azure_api_auth.ts] *)

(** The members of the [UserGroup] enumeration. *)
Inductive UserGroup : Type :=
| ApiLimitedProfileRead
| ApiFullProfileRead
| ApiProfileWrite
| ApiServiceRead
| ApiServiceWrite
| ApiMessageRead
| ApiMessageWrite
| ApiLimitedMessageWrite
| ApiMessageWriteDefaultAddress
| ApiMessageList
| ApiInfoRead
| ApiDebugRead.

(** Every member is a string enum member whose value is its own name. *)
Definition UserGroup_name (g : UserGroup) : string :=
  match g with
  | ApiLimitedProfileRead => "ApiLimitedProfileRead"
  | ApiFullProfileRead => "ApiFullProfileRead"
  | ApiProfileWrite => "ApiProfileWrite"
  | ApiServiceRead => "ApiServiceRead"
  | ApiServiceWrite => "ApiServiceWrite"
  | ApiMessageRead => "ApiMessageRead"
  | ApiMessageWrite => "ApiMessageWrite"
  | ApiLimitedMessageWrite => "ApiLimitedMessageWrite"
  | ApiMessageWriteDefaultAddress => "ApiMessageWriteDefaultAddress"
  | ApiMessageList => "ApiMessageList"
  | ApiInfoRead => "ApiInfoRead"
  | ApiDebugRead => "ApiDebugRead"
  end.

Definition UserGroup_members : list UserGroup :=
  [ ApiLimitedProfileRead; ApiFullProfileRead; ApiProfileWrite;
    ApiServiceRead; ApiServiceWrite;
    ApiMessageRead; ApiMessageWrite; ApiLimitedMessageWrite;
    ApiMessageWriteDefaultAddress; ApiMessageList;
    ApiInfoRead; ApiDebugRead ].

(** The own properties of the object the enumeration compiles to. *)
Definition UserGroup_own (name : string) : option UserGroup :=
  List.find (fun g => String.eqb name (UserGroup_name g)) UserGroup_members.

(** The enumeration compiles to a plain object, so an index that is not
    an own property is looked up along the prototype chain: these are the
    properties every plain object inherits from [Object.prototype]. *)
Definition Object_prototype_keys : list string :=
  [ "constructor"; "hasOwnProperty"; "isPrototypeOf"; "propertyIsEnumerable";
    "toLocaleString"; "toString"; "valueOf"; "__proto__";
    "__defineGetter__"; "__defineSetter__";
    "__lookupGetter__"; "__lookupSetter__" ].

(** What indexing the enumeration object can yield: the value of a member,
    or the value of an inherited property (a function or the prototype
    itself, told apart by the key that reaches it). *)
Inductive GroupValue : Type :=
| Member (g : UserGroup)
| Inherited (key : string).

#[global] Instance UserGroup_eq_dec : EqDecision UserGroup.
Proof. solve_decision. Defined.

#[global] Instance GroupValue_eq_dec : EqDecision GroupValue.
Proof. solve_decision. Defined.

#[global] Instance UserGroup_countable : Countable UserGroup :=
  inj_countable UserGroup_name UserGroup_own ltac:(by intros []).

Definition GroupValue_to_sum (v : GroupValue) : UserGroup + string :=
  match v with Member g => inl g | Inherited k => inr k end.

Definition GroupValue_of_sum (s : UserGroup + string) : GroupValue :=
  match s with inl g => Member g | inr k => Inherited k end.

#[global] Instance GroupValue_countable : Countable GroupValue :=
  inj_countable' GroupValue_to_sum GroupValue_of_sum ltac:(by intros []).

(** [UserGroup[name]]: [None] stands for [undefined]. *)
Definition UserGroup_index (name : string) : option GroupValue :=
  match UserGroup_own name with
  | Some g => Some (Member g)
  | None =>
      if existsb (String.eqb name) Object_prototype_keys
      then Some (Inherited name)
      else None
  end.

(** Looks up a UserGroup by name: [option(v)] is defined unless [v] is
    [undefined]. *)
Definition toUserGroup (name : string) : option GroupValue :=
  UserGroup_index name.

(** Azure authorization info. *)
Record IAzureApiAuthorization : Type := {
  groups : gset GroupValue;
  subscriptionId : string;
  userId : string
}.

(** Returns the set of groups of a groups header: the header is split at
    the commas, every token is looked up, and the defined results are
    collected ([omap] is the map, filter, map of the source). *)
Definition getGroupsFromHeader (groupsHeader : string) : gset GroupValue :=
  list_to_set (omap toUserGroup (split "," groupsHeader)).

(** Lines 132 to 137: the groups of the header, when it is present, not
    empty and yields at least one group. *)
Definition maybeGroupsOf (groupsHeader : option string)
  : option (gset GroupValue) :=
  option_filter (fun hs => 0 <? Z.of_nat (size hs))
    (getGroupsFromHeader <$> toNonEmptyString groupsHeader).

Definition AzureApiAuthMiddleware (allowedGroups : gset UserGroup)
  : IRequestMiddleware IResponseError IAzureApiAuthorization :=
  h_user <- header "x-user-id" ;;
  let maybeUserId := toNonEmptyString h_user in
  h_subscription <- header "x-subscription-id" ;;
  let maybeSubscriptionId := toNonEmptyString h_subscription in
  match maybeUserId, maybeSubscriptionId with
  | Some userId, Some subscriptionId =>
      h_groups <- header "x-user-groups" ;;
      let maybeGroups := maybeGroupsOf h_groups in
      match maybeGroups with
      | None => Ret (Left ResponseErrorForbiddenNoAuthorizationGroups)
      | Some groups =>
          let userHasOneGroup (name : UserGroup) :=
            bool_decide (Member name ∈ groups) in
          let userHasAnyAllowedGroup :=
            findIndex userHasOneGroup (elements allowedGroups) >? -1 in
          if negb userHasAnyAllowedGroup
          then Ret (Left ResponseErrorForbiddenNotAuthorized)
          else Ret (Right {| groups := groups;
                             subscriptionId := subscriptionId;
                             userId := userId |})
      end
  | _, _ => Ret (Left ResponseErrorForbiddenAnonymousUser)
  end.

(** A host that only serves a request: its service model always fails. *)
Definition requestOnly (hs : string -> option string) : Host unit :=
  {| request_header := hs;
     request_body := BodyOther;
     model_findOneByServiceId := fun _ w => (Left "no model", w);
     model_create := fun _ _ w => (Left "no model", w);
     model_update := fun _ _ _ w => (Left "no model", w) |}.

Definition headersOf (l : list (string * string)) (name : string) : option string :=
  snd <$> List.find (fun kv => String.eqb (fst kv) name) l.

(** A header is missing or empty. *)
Definition missingOrEmpty (v : option string) : Prop :=
  v = None \/ v = Some "".

(** A token that neither names a member nor an inherited property is
    looked up to nothing. *)
Definition unrecognized (token : string) : Prop :=
  UserGroup_own token = None /\ ¬ In token Object_prototype_keys.

(** The group check of lines 147 to 157. *)
Definition userHasAnyAllowedGroup
    (groups : gset GroupValue) (allowedGroups : gset UserGroup) : bool :=
  findIndex (fun name => bool_decide (Member name ∈ groups))
            (elements allowedGroups) >? -1.

(** The groups the user holds among the allowed ones. *)
Definition heldAllowedGroups
    (groups : gset GroupValue) (allowedGroups : gset UserGroup)
  : gset GroupValue :=
  groups ∩ set_map Member allowedGroups.

Definition authCalls_anonymous : list Op :=
  [Header "x-user-id"; Header "x-subscription-id"].

Definition authCalls_full : list Op :=
  [Header "x-user-id"; Header "x-subscription-id"; Header "x-user-groups"].

(** What a run of the middleware yields, read off the three headers. *)
Definition authResult (allowedGroups : gset UserGroup)
    (h_user h_subscription h_groups : option string)
  : Either IResponseError IAzureApiAuthorization :=
  match toNonEmptyString h_user, toNonEmptyString h_subscription with
  | Some userId, Some subscriptionId =>
      match maybeGroupsOf h_groups with
      | None => Left ResponseErrorForbiddenNoAuthorizationGroups
      | Some groups =>
          if userHasAnyAllowedGroup groups allowedGroups
          then Right {| groups := groups;
                        subscriptionId := subscriptionId;
                        userId := userId |}
          else Left ResponseErrorForbiddenNotAuthorized
      end
  | _, _ => Left ResponseErrorForbiddenAnonymousUser
  end.

(** ** Middleware combinator *)

(** Modelled from the spec: [withRequestMiddlewares] of
    [lib/utils/request_middleware], which is not among the sources. The
    middlewares run in order, each one after the previous one completed;
    the first failure is returned at once, and when all succeed the result
    is the tuple of their values, in the order of the middlewares. *)
Fixpoint withRequestMiddlewares {R T} (ms : list (IRequestMiddleware R T))
  : IRequestMiddleware R (list T) :=
  match ms with
  | [] => Ret (Right [])
  | m :: rest =>
      r <- m ;;
      match r with
      | Left failure => Ret (Left failure)
      | Right v =>
          rs <- withRequestMiddlewares rest ;;
          match rs with
          | Left failure => Ret (Left failure)
          | Right vs => Ret (Right (v :: vs))
          end
      end
  end.

(** ** Runtime types of the API definitions *)

(** The [is] guards of the generated io-ts types [CIDR], [FiscalCode] and
    [EmailString]; their definitions are not among the sources, so the
    development is parametric in them. *)
Class ApiDefinitions : Type := {
  CIDR_is : string -> bool;
  FiscalCode_is : string -> bool;
  EmailString_is : string -> bool
}.

(** [NonEmptyString.is]. *)
Definition NonEmptyString_is (s : string) : bool :=
  negb (String.eqb s "").

(** ** Service-attributes middleware *)

Record IAzureUserAttributes : Type := {
  email : string;
  service : option IRetrievedService
}.

(** The email header holds an email address: it is present and not
    empty, as the specification asks, and it is accepted by [EmailString],
    as the tests ask, which reject ["xyz"]. *)
Definition toEmailString `{ApiDefinitions} (s : option string) : option string :=
  option_filter EmailString_is (toNonEmptyString s).

(** The service the attributes middleware hands over: the stored one,
    with its recipients rebuilt as a set. *)
Definition withRecipientsSet (s : IRetrievedService) : IRetrievedService :=
  {| rs_id := rs_id s;
     rs_version := rs_version s;
     rs_authorizedCIDRs := rs_authorizedCIDRs s;
     rs_authorizedRecipients :=
       list_to_set (elements (rs_authorizedRecipients s));
     rs_departmentName := rs_departmentName s;
     rs_organizationName := rs_organizationName s;
     rs_serviceId := rs_serviceId s;
     rs_serviceName := rs_serviceName s |}.

(** Modelled from the spec: [AzureUserAttributesMiddleware] of
    [lib/utils/middlewares/azure_user_attributes], of which only the tests
    are among the sources. The email header is validated first, then the
    subscription id, then the service is looked up by the subscription id;
    a failed lookup is a query error, a service that does not exist is
    not an error, and the recipients of a service that exists are rebuilt
    as a set. *)
Definition AzureUserAttributesMiddleware `{ApiDefinitions}
  : IRequestMiddleware IResponseError IAzureUserAttributes :=
  h_email <- header "x-user-email" ;;
  match toEmailString h_email with
  | None =>
      Ret (Left (ResponseErrorInternal
                   "Missing, empty or invalid x-user-email header"))
  | Some userEmail =>
      h_subscription <- header "x-subscription-id" ;;
      match toNonEmptyString h_subscription with
      | None =>
          Ret (Left (ResponseErrorInternal
                       "Missing or empty x-subscription-id header"))
      | Some subscriptionId =>
          errorOrMaybeService <- findOneByServiceId subscriptionId ;;
          match errorOrMaybeService with
          | Left error =>
              Ret (Left (ResponseErrorQuery
                           "Error while retrieving the service tied to the provided subscription id"
                           error))
          | Right maybeService =>
              Ret (Right
                {| email := userEmail;
                   service := withRecipientsSet <$> maybeService |})
          end
      end
  end.

(** ** Source-IP gate *)

(** Modelled from the spec: [ClientIp] of
    [lib/utils/middlewares/client_ip_middleware], the address of the
    client as the client-IP middleware yields it. *)
Definition ClientIp : Type := string.

(** The range test of the gate: whether an address lies in a CIDR range.
    It comes from a library, and the gate is parametric in it. *)
Class RangeCheck : Type := {
  inRange : ClientIp -> string -> bool
}.

(** Modelled from the spec: [checkSourceIpForHandler] of
    [lib/utils/source_ip_check], which is not among the sources. The
    extractor projects the client address and the authorized CIDRs out of
    the arguments of the handler; the handler is called when the set is
    empty or when the address lies in one of its ranges, and otherwise the
    gate answers [ResponseErrorForbiddenNotAuthorized] by itself. *)
Definition checkSourceIpForHandler `{RangeCheck} {A T}
    (handler : A -> Prog (IResponse T))
    (extractor : A -> ClientIp * gset string)
  : A -> Prog (IResponse T) :=
  fun args =>
    let clientIp := fst (extractor args) in
    let cidrs := snd (extractor args) in
    if (size cidrs =? 0)%nat || existsb (inRange clientIp) (elements cidrs)
    then handler args
    else Ret (ResponseError ResponseErrorForbiddenNotAuthorized).

(** *** IPv4 ranges by prefix masking

    Modelled from the spec: the range test on IPv4 addresses, by prefix
    masking, to run the gate on the examples of the specification. *)

Definition digit (c : ascii) : option Z :=
  let n := Z.of_N (N_of_ascii c) in
  if (48 <=? n) && (n <=? 57) then Some (n - 48) else None.

Fixpoint parseDecimal_from (s : string) (acc : Z) : option Z :=
  match s with
  | EmptyString => Some acc
  | String c rest =>
      match digit c with
      | Some d => parseDecimal_from rest (10 * acc + d)
      | None => None
      end
  end.

Definition parseDecimal (s : string) : option Z :=
  match s with
  | EmptyString => None
  | _ => parseDecimal_from s 0
  end.

Definition parseOctet (s : string) : option Z :=
  match parseDecimal s with
  | Some d => if d <=? 255 then Some d else None
  | None => None
  end.

(** A dotted quad as a 32-bit integer. *)
Definition parseIPv4 (s : string) : option Z :=
  match split "." s with
  | [a; b; c; d] =>
      match parseOctet a, parseOctet b, parseOctet c, parseOctet d with
      | Some a, Some b, Some c, Some d =>
          Some (Z.lor (Z.shiftl a 24)
                 (Z.lor (Z.shiftl b 16) (Z.lor (Z.shiftl c 8) d)))
      | _, _, _, _ => None
      end
  | _ => None
  end.

(** [a.b.c.d/n], or a single address, which is a range of one. *)
Definition parseCIDR (s : string) : option (Z * Z) :=
  match split "/" s with
  | [addr] => (fun a => (a, 32)) <$> parseIPv4 addr
  | [addr; n] =>
      match parseIPv4 addr, parseDecimal n with
      | Some a, Some n => if n <=? 32 then Some (a, n) else None
      | _, _ => None
      end
  | _ => None
  end.

(** The address and the base of the range agree on the first [n] bits. *)
Definition ipv4InRange (ip : ClientIp) (cidr : string) : bool :=
  match parseIPv4 ip, parseCIDR cidr with
  | Some i, Some (base, n) => Z.shiftr i (32 - n) =? Z.shiftr base (32 - n)
  | _, _ => false
  end.

Definition ipv4RangeCheck : RangeCheck := {| inRange := ipv4InRange |}.

(** ** Services controller: [lib/controllers/adm/services.ts] *)

(** Modelled from the spec: [toAuthorizedCIDRs] and
    [toAuthorizedRecipients] of [lib/models/service], which is not among
    the sources; they turn the arrays of a payload into sets. *)
Definition toAuthorizedCIDRs (cidrs : list string) : gset string :=
  list_to_set cidrs.

Definition toAuthorizedRecipients (recipients : list string) : gset string :=
  list_to_set recipients.

(** Modelled from the spec: the guard [Service.is] of
    [lib/api/definitions/Service], on a body that is an object: the four
    names are non-empty strings, the ranges are CIDRs and the recipients
    are fiscal codes. *)
Definition Service_is `{ApiDefinitions} (o : Service) : bool :=
  forallb CIDR_is (authorized_cidrs o)
  && forallb FiscalCode_is (authorized_recipients o)
  && NonEmptyString_is (department_name o)
  && NonEmptyString_is (organization_name o)
  && NonEmptyString_is (service_id o)
  && NonEmptyString_is (service_name o).

(** Converts a retrieved service to a service that can be shared via API.
    [elements] stands for [Array.from]: it lists each member once. *)
Definition retrievedServiceToPublic `{ApiDefinitions}
    (retrievedService : IRetrievedService) : Service :=
  {| authorized_cidrs :=
       List.filter CIDR_is (elements (rs_authorizedCIDRs retrievedService));
     authorized_recipients :=
       List.filter FiscalCode_is
         (elements (rs_authorizedRecipients retrievedService));
     department_name := rs_departmentName retrievedService;
     id := Some (rs_id retrievedService);
     organization_name := rs_organizationName retrievedService;
     service_id := rs_serviceId retrievedService;
     service_name := rs_serviceName retrievedService;
     version := Some (rs_version retrievedService) |}.

Definition invalidServicePayload : IResponseError :=
  ResponseErrorValidation
    "Invalid service payload"
    "Request body does not conform to the required service format".

(** A middleware that extracts a Service payload from a request. A body
    that is not an object never passes [Service.is]. *)
Definition ServicePayloadMiddleware `{ApiDefinitions}
  : IRequestMiddleware IResponseError IService :=
  b <- body ;;
  match b with
  | BodyObject o =>
      if negb (Service_is o)
      then Ret (Left invalidServicePayload)
      else
        let servicePayload :=
          {| authorizedCIDRs := toAuthorizedCIDRs (authorized_cidrs o);
             authorizedRecipients :=
               toAuthorizedRecipients (authorized_recipients o);
             departmentName := department_name o;
             organizationName := organization_name o;
             serviceId := service_id o;
             serviceName := service_name o |} in
        Ret (Right servicePayload)
  | BodyOther => Ret (Left invalidServicePayload)
  end.

(** The object spread of the update:
    [{...currentService, ...serviceModelPayload, serviceId}]. *)
Definition updatedService (currentService : IRetrievedService)
    (serviceModelPayload : IService) (service_id_param : string)
  : IRetrievedService :=
  {| rs_id := rs_id currentService;
     rs_version := rs_version currentService;
     rs_authorizedCIDRs := authorizedCIDRs serviceModelPayload;
     rs_authorizedRecipients := authorizedRecipients serviceModelPayload;
     rs_departmentName := departmentName serviceModelPayload;
     rs_organizationName := organizationName serviceModelPayload;
     rs_serviceId := service_id_param;
     rs_serviceName := serviceName serviceModelPayload |}.

Definition UpdateServiceHandler `{ApiDefinitions}
    (_ : IAzureApiAuthorization) (__ : ClientIp) (___ : IAzureUserAttributes)
    (service_id_param : string) (serviceModelPayload : IService)
  : Prog (IResponse Service) :=
  if negb (String.eqb (serviceId serviceModelPayload) service_id_param)
  then
    Ret (ResponseError (ResponseErrorValidation
      "Error validating payload"
      "Value of `service_id` in the request body must match the value of `service_id` path parameter"))
  else
    errorOrMaybeService <- findOneByServiceId service_id_param ;;
    match errorOrMaybeService with
    | Left error =>
        Ret (ResponseError (ResponseErrorQuery
          "Error trying to retrieve existing service" error))
    | Right None =>
        Ret (ResponseError (ResponseErrorNotFound
          "Error" "Could not find a service with the provided serviceId"))
    | Right (Some existingService) =>
        errorOrMaybeUpdatedService <-
          update (rs_id existingService) (rs_serviceId existingService)
            (fun currentService =>
               updatedService currentService serviceModelPayload
                 service_id_param) ;;
        match errorOrMaybeUpdatedService with
        | Left error =>
            Ret (ResponseError (ResponseErrorQuery
              "Error while updating the existing service" error))
        | Right None =>
            Ret (ResponseError (ResponseErrorInternal
              "Error while updating the existing service"))
        | Right (Some updated) =>
            Ret (ResponseSuccessJson (retrievedServiceToPublic updated))
        end
    end.

Definition CreateServiceHandler `{ApiDefinitions}
    (_ : IAzureApiAuthorization) (__ : ClientIp) (___ : IAzureUserAttributes)
    (serviceModelPayload : IService)
  : Prog (IResponse Service) :=
  errorOrService <- create serviceModelPayload (serviceId serviceModelPayload) ;;
  match errorOrService with
  | Right created => Ret (ResponseSuccessJson (retrievedServiceToPublic created))
  | Left error => Ret (ResponseError (ResponseErrorQuery "Error" error))
  end.

Definition GetServiceHandler `{ApiDefinitions}
    (_ : IAzureApiAuthorization) (__ : ClientIp) (___ : IAzureUserAttributes)
    (service_id_param : string)
  : Prog (IResponse Service) :=
  errorOrMaybeService <- findOneByServiceId service_id_param ;;
  match errorOrMaybeService with
  | Right maybeService =>
      match maybeService with
      | None =>
          Ret (ResponseError (ResponseErrorNotFound
            "Service not found"
            "The service you requested was not found in the system."))
      | Some retrieved =>
          Ret (ResponseSuccessJson (retrievedServiceToPublic retrieved))
      end
  | Left error =>
      Ret (ResponseError (ResponseErrorQuery
        "Error while retrieving the service" error))
  end.

(** The calls that write to the storage. *)
Definition isWrite (o : Op) : bool :=
  match o with
  | Create _ _ | Update _ _ _ => true
  | _ => false
  end.

(** The [kind] tag of a response. *)
Definition responseKind {T} (r : IResponse T) : string :=
  match r with
  | ResponseError e => kind e
  | ResponseSuccessJson _ => "IResponseSuccessJson"
  end.

(** ** Runs of a list of middlewares *)

(** [succeedAll h ms w vs w' cs]: run one after the other from the state
    [w], the middlewares [ms] all succeed, with the values [vs] in this
    order; they leave the state [w'] and make the calls [cs]. *)
Inductive succeedAll {W R T} (h : Host W)
  : list (IRequestMiddleware R T) -> W -> list T -> W -> list Op -> Prop :=
| succeedAll_nil (w : W) : succeedAll h [] w [] w []
| succeedAll_cons m ms w v vs w' cs :
    result (run h m w) = Right v ->
    succeedAll h ms (world (run h m w)) vs w' cs ->
    succeedAll h (m :: ms) w (v :: vs) w' (calls (run h m w) ++ cs).

Create HintDb middlewares.
#[global] Hint Constructors succeedAll : middlewares.

(** ** Sample hosts *)

(** A host whose state counts the calls made to its service model: no
    service is stored, and writes are refused. *)
Definition countingHost (hs : string -> option string) : Host nat :=
  {| request_header := hs;
     request_body := BodyOther;
     model_findOneByServiceId := fun _ n => (Right None, S n);
     model_create := fun _ _ n => (Left "storage unavailable", S n);
     model_update := fun _ _ _ n => (Left "storage unavailable", S n) |}.

(** ** Sample runtime types *)

Fixpoint containsChar (c : ascii) (s : string) : bool :=
  match s with
  | EmptyString => false
  | String c' rest => Ascii.eqb c c' || containsChar c rest
  end.

(** Guards to run the development on examples: a CIDR is what
    [parseCIDR] reads, a fiscal code has sixteen characters and an email
    address has an at sign. *)
Definition sampleDefinitions : ApiDefinitions :=
  {| CIDR_is := fun s => match parseCIDR s with Some _ => true | None => false end;
     FiscalCode_is := fun s => (String.length s =? 16)%nat;
     EmailString_is := containsChar "@" |}.

(** A host that serves a request with a body, over a storage that keeps
    nothing. *)
Definition bodyHost (b : RequestBody) : Host nat :=
  {| request_header := fun _ => None;
     request_body := b;
     model_findOneByServiceId := fun _ n => (Right None, S n);
     model_create := fun _ _ n => (Left "storage unavailable", S n);
     model_update := fun _ _ _ n => (Left "storage unavailable", S n) |}.

Definition samplePayload : Service :=
  {| authorized_cidrs := ["10.0.0.0/24"; "192.168.1.1"; "10.0.0.0/24"];
     authorized_recipients := ["AAABBB01C02D345E"];
     department_name := "MyDept";
     id := None;
     organization_name := "MyOrg";
     service_id := "serviceId";
     service_name := "MyService";
     version := None |}.

Definition sampleAuthorization : IAzureApiAuthorization :=
  {| groups := {[Member ApiServiceRead]};
     subscriptionId := "s";
     userId := "u" |}.

Definition sampleAttributes : IAzureUserAttributes :=
  {| email := "test@example.com"; service := None |}.

(** ** Blob storage: [lib/utils/storage.ts] *)




(** The blob service, as far as this file uses it. The service answers
    [createBlockBlobFromText] through a callback, which it calls with an
    error or [null] and with a result or [undefined]: the list holds the
    calls it makes, in order. *)
Record BlobService (B : Type) : Type := {
  getUrl : string -> string -> string;
  createBlockBlobFromText :
    string -> string -> string -> list (option string * option B)
}.
Arguments getUrl {B} b containerName blobName.
Arguments createBlockBlobFromText {B} b containerName blobName text.

Definition getBlobUrl {B} (containerName attachmentName : string)
    (blobService : BlobService B) : string :=
  getUrl blobService containerName attachmentName.



(** ** A storage that keeps one document *)

(** The document a storage makes of a service. *)
Definition asStored (documentId : string) (documentVersion : Z) (s : IService)
  : IRetrievedService :=
  {| rs_id := documentId;
     rs_version := documentVersion;
     rs_authorizedCIDRs := authorizedCIDRs s;
     rs_authorizedRecipients := authorizedRecipients s;
     rs_departmentName := departmentName s;
     rs_organizationName := organizationName s;
     rs_serviceId := serviceId s;
     rs_serviceName := serviceName s |}.

(** A host over a storage of one slot: a created service replaces the
    slot, a lookup finds the slot by service id, and an update applies its
    function to the slot when the document id is the one of the slot. *)
Definition storingHost (b : RequestBody) : Host (option IRetrievedService) :=
  {| request_header := fun _ => None;
     request_body := b;
     model_findOneByServiceId := fun i w =>
       (Right match w with
              | Some d => if String.eqb (rs_serviceId d) i then Some d else None
              | None => None
              end, w);
     model_create := fun s _ _ =>
       (Right (asStored "doc-1" 0 s), Some (asStored "doc-1" 0 s));
     model_update := fun documentId _ f w =>
       match w with
       | Some d =>
           if String.eqb (rs_id d) documentId
           then (Right (Some (f d)), Some (f d))
           else (Right None, w)
       | None => (Right None, w)
       end |}.

Definition sampleStored : IRetrievedService :=
  {| rs_id := "doc-7";
     rs_version := 3;
     rs_authorizedCIDRs := {["10.0.0.0/24"; "not a range"]};
     rs_authorizedRecipients := {["AAABBB01C02D345E"; "short"]};
     rs_departmentName := "OldDept";
     rs_organizationName := "OldOrg";
     rs_serviceId := "serviceId";
     rs_serviceName := "OldService" |}.

Definition sampleService : IService :=
  {| authorizedCIDRs := {["192.168.1.1"]};
     authorizedRecipients := ∅;
     departmentName := "MyDept";
     organizationName := "MyOrg";
     serviceId := "serviceId";
     serviceName := "MyService" |}.

(** ** The update of a service *)

(** The function the update handler hands to the storage. *)
Definition updateOf (serviceModelPayload : IService) (service_id_param : string)
  : IRetrievedService -> IRetrievedService :=
  fun currentService =>
    updatedService currentService serviceModelPayload service_id_param.

(** * Properties *)

(** ** Facts about the primitives *)

Lemma UserGroup_own_name (g : UserGroup) :
  UserGroup_own (UserGroup_name g) = Some g.
Proof. destruct g; reflexivity. Qed.

Lemma toNonEmptyString_None (v : option string) :
  toNonEmptyString v = None <-> missingOrEmpty v.
Proof.
  unfold toNonEmptyString, option_filter, missingOrEmpty.
  destruct v as [s|]; [|tauto].
  destruct (String.eqb_spec s "") as [->|Hne]; simpl.
  - tauto.
  - split; [discriminate|]. intros [H|H]; [discriminate|]. congruence.
Qed.

Lemma toNonEmptyString_Some (v : option string) (s : string) :
  toNonEmptyString v = Some s <-> v = Some s /\ s <> "".
Proof.
  unfold toNonEmptyString, option_filter.
  destruct v as [t|]; [|split; [discriminate|intros [? _]; discriminate]].
  destruct (String.eqb_spec t "") as [->|Hne]; simpl.
  - split; [discriminate|]. intros [[= <-] H]. contradiction.
  - split; [intros [= <-]; auto|]. intros [[= <-] _]. reflexivity.
Qed.

Lemma findIndex_from_spec {A} (p : A -> bool) (l : list A) (i : Z) :
  0 <= i -> (findIndex_from p l i >? -1) = existsb p l.
Proof.
  revert i. induction l as [|x rest IH]; intros i Hi; simpl.
  - reflexivity.
  - destruct (p x); simpl.
    + apply Z.gtb_lt. lia.
    + apply IH. lia.
Qed.

Lemma findIndex_found {A} (p : A -> bool) (l : list A) :
  (findIndex p l >? -1) = existsb p l.
Proof. apply findIndex_from_spec. lia. Qed.

Lemma run_bind {W A B} (h : Host W) (p : Prog A) (f : A -> Prog B) (w : W) :
  run h (bind p f) w =
  let o1 := run h p w in
  let o2 := run h (f (result o1)) (world o1) in
  {| result := result o2; world := world o2; calls := calls o1 ++ calls o2 |}.
Proof.
  revert w. induction p as [r|o k IH]; intros w; simpl.
  - destruct (run h (f r) w); reflexivity.
  - destruct (answer h o w) as [a w1]. rewrite IH. reflexivity.
Qed.

(** ** The identity middleware, case by case *)

Lemma userHasAnyAllowedGroup_spec groups allowedGroups :
  userHasAnyAllowedGroup groups allowedGroups = false <->
  heldAllowedGroups groups allowedGroups = ∅.
Proof.
  unfold userHasAnyAllowedGroup, heldAllowedGroups.
  rewrite findIndex_found. split.
  - intros Hno. apply set_eq. intros v. split; [|set_solver].
    intros Hv. apply elem_of_intersection in Hv as [Hg Ha].
    apply elem_of_map in Ha as (g & -> & Hin).
    assert (existsb (fun name => bool_decide (Member name ∈ groups))
                    (elements allowedGroups) = true) as Hex.
    { apply existsb_exists. exists g. split.
      - apply list_elem_of_In, elem_of_elements, Hin.
      - apply bool_decide_eq_true_2, Hg. }
    congruence.
  - intros Hempty.
    destruct (existsb _ _) eqn:Hex; [|reflexivity].
    apply existsb_exists in Hex as (g & Hin & Hg).
    apply list_elem_of_In, elem_of_elements in Hin.
    apply bool_decide_eq_true_1 in Hg.
    assert (Member g ∈ groups ∩ set_map Member allowedGroups) as Hmem.
    { apply elem_of_intersection. split; [exact Hg|].
      apply elem_of_map. exists g. auto. }
    rewrite Hempty in Hmem. set_solver.
Qed.

Lemma AzureApiAuthMiddleware_run {W} (h : Host W) allowedGroups (w : W) :
  let out := run h (AzureApiAuthMiddleware allowedGroups) w in
  result out = authResult allowedGroups (request_header h "x-user-id")
                 (request_header h "x-subscription-id")
                 (request_header h "x-user-groups")
  /\ world out = w
  /\ calls out =
       match toNonEmptyString (request_header h "x-user-id"),
             toNonEmptyString (request_header h "x-subscription-id") with
       | Some _, Some _ => authCalls_full
       | _, _ => authCalls_anonymous
       end.
Proof.
  unfold AzureApiAuthMiddleware, authResult, userHasAnyAllowedGroup. simpl.
  destruct (toNonEmptyString (request_header h "x-user-id")) as [u|];
    destruct (toNonEmptyString (request_header h "x-subscription-id")) as [s|];
    simpl; auto.
  destruct (maybeGroupsOf (request_header h "x-user-groups")) as [g|]; simpl; auto.
  destruct (findIndex _ _ >? -1); simpl; auto.
Qed.

(** Replaces the result of a run of the middleware in the goal by its
    reading off the headers. *)
Ltac auth_run h allowedGroups w :=
  let Hres := fresh "Hres" in
  destruct (AzureApiAuthMiddleware_run h allowedGroups w) as (Hres & _ & _);
  cbv zeta; rewrite Hres; unfold authResult; clear Hres.

(** Settles a claim that a header is missing or empty on a header that
    holds a value. *)
Ltac header_present := intros [?|?]; discriminate.

Lemma elem_of_getGroupsFromHeader (groupsHeader : string) (v : GroupValue) :
  v ∈ getGroupsFromHeader groupsHeader <->
  exists token, token ∈ split "," groupsHeader /\ toUserGroup token = Some v.
Proof.
  unfold getGroupsFromHeader.
  rewrite elem_of_list_to_set. apply list_elem_of_omap.
Qed.

Lemma toUserGroup_Member (token : string) (g : UserGroup) :
  toUserGroup token = Some (Member g) <-> token = UserGroup_name g.
Proof.
  unfold toUserGroup, UserGroup_index. split.
  - destruct (UserGroup_own token) as [g'|] eqn:Hown.
    + intros [= ->]. unfold UserGroup_own in Hown.
      apply find_some in Hown as [_ Heq].
      apply String.eqb_eq in Heq. exact Heq.
    + destruct (existsb _ _); discriminate.
  - intros ->. rewrite UserGroup_own_name. reflexivity.
Qed.

Lemma toUserGroup_unrecognized (token : string) :
  unrecognized token -> toUserGroup token = None.
Proof.
  intros [Hown Hproto]. unfold toUserGroup, UserGroup_index. rewrite Hown.
  destruct (existsb _ _) eqn:Hex; [|reflexivity].
  apply existsb_exists in Hex as (k & Hin & Heq).
  apply String.eqb_eq in Heq. subst k. contradiction.
Qed.

Lemma maybeGroupsOf_None_unrecognized (v : option string) :
  (missingOrEmpty v \/
   exists s, v = Some s /\ forall token, token ∈ split "," s -> unrecognized token) ->
  maybeGroupsOf v = None.
Proof.
  unfold maybeGroupsOf. intros [Hmiss | (s & -> & Htok)].
  - apply toNonEmptyString_None in Hmiss. rewrite Hmiss. reflexivity.
  - destruct (toNonEmptyString (Some s)) as [s'|] eqn:Hne; [|reflexivity].
    apply toNonEmptyString_Some in Hne as [[= <-] _]. simpl.
    assert (getGroupsFromHeader s = ∅) as ->.
    { apply set_eq. intros x. split; [|set_solver].
      intros Hx. apply elem_of_getGroupsFromHeader in Hx as (t & Ht & Hv).
      rewrite (toUserGroup_unrecognized t (Htok t Ht)) in Hv. discriminate. }
    reflexivity.
Qed.

Lemma maybeGroupsOf_Some (v : option string) (gs : gset GroupValue) :
  maybeGroupsOf v = Some gs ->
  exists s, v = Some s /\ s <> "" /\ gs = getGroupsFromHeader s /\ gs <> ∅.
Proof.
  unfold maybeGroupsOf.
  destruct (toNonEmptyString v) as [s|] eqn:Hs; simpl; [|discriminate].
  apply toNonEmptyString_Some in Hs as [-> Hne].
  destruct (0 <? Z.of_nat (size (getGroupsFromHeader s))) eqn:Hsize;
    [|discriminate].
  intros [= <-]. exists s. repeat split; auto.
  intros Hempty. rewrite Hempty, size_empty in Hsize. discriminate.
Qed.

Lemma not_elem_of_authCalls_anonymous :
  Header "x-user-groups" ∉ authCalls_anonymous.
Proof.
  unfold authCalls_anonymous. intros Hin.
  apply elem_of_cons in Hin as [Heq|Hin]; [discriminate|].
  apply elem_of_cons in Hin as [Heq|Hin]; [discriminate|].
  by apply elem_of_nil in Hin.
Qed.

(** C5. When the x-user-id header or the x-subscription-id header is
    missing or empty, the identity middleware fails with
    ForbiddenAnonymousUser and never reads the x-user-groups header; when
    both are present and not empty, it never answers
    ForbiddenAnonymousUser. *)
Theorem AzureApiAuthMiddleware_anonymous
    {W} (h : Host W) (allowedGroups : gset UserGroup) (w : W) :
  let out := run h (AzureApiAuthMiddleware allowedGroups) w in
  (missingOrEmpty (request_header h "x-user-id") \/
   missingOrEmpty (request_header h "x-subscription-id") ->
   result out = Left ResponseErrorForbiddenAnonymousUser /\
   Header "x-user-groups" ∉ calls out)
  /\
  (¬ missingOrEmpty (request_header h "x-user-id") ->
   ¬ missingOrEmpty (request_header h "x-subscription-id") ->
   result out <> Left ResponseErrorForbiddenAnonymousUser).
Proof.
  destruct (AzureApiAuthMiddleware_run h allowedGroups w) as (Hres & _ & Hcalls).
  cbv zeta. rewrite Hres, Hcalls. unfold authResult. split.
  - rewrite <- !toNonEmptyString_None. intros Hmiss.
    destruct (toNonEmptyString (request_header h "x-user-id"));
      destruct (toNonEmptyString (request_header h "x-subscription-id"));
      try (split; [reflexivity | apply not_elem_of_authCalls_anonymous]).
    destruct Hmiss; discriminate.
  - rewrite <- !toNonEmptyString_None. intros Hu Hs.
    destruct (toNonEmptyString (request_header h "x-user-id")); [|congruence].
    destruct (toNonEmptyString (request_header h "x-subscription-id"));
      [|congruence].
    destruct (maybeGroupsOf _); [|discriminate].
    destruct (userHasAnyAllowedGroup _ _); discriminate.
Qed.

Lemma AzureApiAuthMiddleware_anonymous_witness :
  let out := run (requestOnly (headersOf [("x-user-id", "u");
                                          ("x-user-groups", "ApiServiceRead")]))
                 (AzureApiAuthMiddleware {[ApiServiceRead]}) tt in
  result out = Left ResponseErrorForbiddenAnonymousUser /\
  Header "x-user-groups" ∉ calls out.
Proof.
  apply (proj1 (AzureApiAuthMiddleware_anonymous
                  (requestOnly (headersOf [("x-user-id", "u");
                                           ("x-user-groups", "ApiServiceRead")]))
                  {[ApiServiceRead]} tt)).
  right. left. reflexivity.
Defined.

(** C9. The identity middleware is a function of the three headers and of
    the allowed groups: two runs that agree on them have the same result,
    on whatever hosts and from whatever states; a run leaves the state of
    its host as it found it, and calls nothing but header reads. *)
Theorem AzureApiAuthMiddleware_deterministic
    {W1 W2} (h1 : Host W1) (h2 : Host W2)
    (allowedGroups : gset UserGroup) (w1 : W1) (w2 : W2) :
  request_header h1 "x-user-id" = request_header h2 "x-user-id" ->
  request_header h1 "x-subscription-id" = request_header h2 "x-subscription-id" ->
  request_header h1 "x-user-groups" = request_header h2 "x-user-groups" ->
  let out1 := run h1 (AzureApiAuthMiddleware allowedGroups) w1 in
  let out2 := run h2 (AzureApiAuthMiddleware allowedGroups) w2 in
  result out1 = result out2
  /\ world out1 = w1 /\ world out2 = w2
  /\ Forall (fun o => exists name, o = Header name) (calls out1).
Proof.
  intros Hu Hs Hg.
  destruct (AzureApiAuthMiddleware_run h1 allowedGroups w1) as (Hr1 & Hw1 & Hc1).
  destruct (AzureApiAuthMiddleware_run h2 allowedGroups w2) as (Hr2 & Hw2 & _).
  cbv zeta. rewrite Hr1, Hr2, Hw1, Hw2, Hc1, Hu, Hs, Hg.
  split; [reflexivity|]. split; [reflexivity|]. split; [reflexivity|].
  destruct (toNonEmptyString (request_header h2 "x-user-id"));
    [destruct (toNonEmptyString (request_header h2 "x-subscription-id"))|];
    unfold authCalls_full, authCalls_anonymous;
    repeat (apply Forall_cons; split; [eexists; reflexivity|]);
    apply Forall_nil_2.
Qed.

Lemma AzureApiAuthMiddleware_deterministic_witness :
  let h1 := requestOnly (headersOf [("x-user-id", "u");
                                    ("x-subscription-id", "s");
                                    ("x-user-groups", "ApiServiceRead")]) in
  let h2 := requestOnly (headersOf [("x-forwarded-for", "10.0.0.5");
                                    ("x-user-groups", "ApiServiceRead");
                                    ("x-subscription-id", "s");
                                    ("x-user-id", "u")]) in
  let out1 := run h1 (AzureApiAuthMiddleware {[ApiServiceRead]}) tt in
  let out2 := run h2 (AzureApiAuthMiddleware {[ApiServiceRead]}) tt in
  result out1 = result out2
  /\ world out1 = tt /\ world out2 = tt
  /\ Forall (fun o => exists name, o = Header name) (calls out1).
Proof.
  apply (AzureApiAuthMiddleware_deterministic
           (requestOnly (headersOf [("x-user-id", "u");
                                    ("x-subscription-id", "s");
                                    ("x-user-groups", "ApiServiceRead")]))
           (requestOnly (headersOf [("x-forwarded-for", "10.0.0.5");
                                    ("x-user-groups", "ApiServiceRead");
                                    ("x-subscription-id", "s");
                                    ("x-user-id", "u")]))
           {[ApiServiceRead]} tt tt); reflexivity.
Defined.

Lemma getGroupsFromHeader_empty_string : getGroupsFromHeader "" = ∅.
Proof.
  apply set_eq. intros v. split; [|set_solver].
  intros Hv. apply elem_of_getGroupsFromHeader in Hv as (t & Ht & Hv).
  simpl in Ht. apply list_elem_of_singleton in Ht. subst t. discriminate.
Qed.

Lemma maybeGroupsOf_parsed (s : string) :
  getGroupsFromHeader s <> ∅ ->
  maybeGroupsOf (Some s) = Some (getGroupsFromHeader s).
Proof.
  intros Hne. unfold maybeGroupsOf.
  assert (toNonEmptyString (Some s) = Some s) as ->.
  { apply toNonEmptyString_Some. split; [reflexivity|].
    intros ->. apply Hne, getGroupsFromHeader_empty_string. }
  simpl.
  destruct (0 <? Z.of_nat (size (getGroupsFromHeader s))) eqn:Hsize;
    [reflexivity|].
  exfalso. apply Hne. apply leibniz_equiv, size_empty_iff.
  apply Z.ltb_ge in Hsize. lia.
Qed.

(** C3, as stated, fails on a request without any header: its groups
    header is missing, and the middleware answers ForbiddenAnonymousUser,
    not ForbiddenNoAuthorizationGroups. *)
Lemma AzureApiAuthMiddleware_no_groups_counterexample :
  let h := requestOnly (headersOf []) in
  let out := run h (AzureApiAuthMiddleware {[ApiServiceRead]}) tt in
  missingOrEmpty (request_header h "x-user-groups")
  /\ result out = Left ResponseErrorForbiddenAnonymousUser
  /\ result out <> Left ResponseErrorForbiddenNoAuthorizationGroups.
Proof.
  cbv zeta. split; [left; reflexivity|]. split; [reflexivity|].
  vm_compute. discriminate.
Qed.

(** C3, amended. On a request whose x-user-id and x-subscription-id
    headers are present and not empty, and whose x-user-groups header is
    missing, empty, or made only of tokens that name neither a member of
    the enumeration nor a property its object inherits, the identity
    middleware fails with ForbiddenNoAuthorizationGroups. Such tokens are
    dropped: every element of the group set of an identity the middleware
    builds is what the lookup yields for some token of the header. *)
Theorem AzureApiAuthMiddleware_no_groups
    {W} (h : Host W) (allowedGroups : gset UserGroup) (w : W) :
  ¬ missingOrEmpty (request_header h "x-user-id") ->
  ¬ missingOrEmpty (request_header h "x-subscription-id") ->
  let out := run h (AzureApiAuthMiddleware allowedGroups) w in
  ((missingOrEmpty (request_header h "x-user-groups") \/
    exists s, request_header h "x-user-groups" = Some s /\
              forall token, token ∈ split "," s -> unrecognized token) ->
   result out = Left ResponseErrorForbiddenNoAuthorizationGroups)
  /\
  (forall identity, result out = Right identity ->
   forall v, v ∈ groups identity ->
   exists s token,
     request_header h "x-user-groups" = Some s /\ token ∈ split "," s /\
     toUserGroup token = Some v /\ ¬ unrecognized token).
Proof.
  intros Hu Hs.
  auth_run h allowedGroups w.
  rewrite <- toNonEmptyString_None in Hu, Hs.
  destruct (toNonEmptyString (request_header h "x-user-id")) as [u|];
    [|congruence].
  destruct (toNonEmptyString (request_header h "x-subscription-id")) as [s|];
    [|congruence].
  split.
  - intros Hg. rewrite (maybeGroupsOf_None_unrecognized _ Hg). reflexivity.
  - intros identity.
    destruct (maybeGroupsOf (request_header h "x-user-groups")) as [gs|] eqn:Hgs;
      [|discriminate].
    destruct (userHasAnyAllowedGroup gs allowedGroups); [|discriminate].
    intros [= <-] v Hv. simpl in Hv.
    apply maybeGroupsOf_Some in Hgs as (hdr & Hhdr & _ & -> & _).
    apply elem_of_getGroupsFromHeader in Hv as (t & Ht & Hval).
    exists hdr, t. repeat split; auto.
    intros Hun. rewrite (toUserGroup_unrecognized t Hun) in Hval. discriminate.
Qed.

Lemma AzureApiAuthMiddleware_no_groups_witness :
  let h := requestOnly (headersOf [("x-user-id", "u");
                                   ("x-subscription-id", "s");
                                   ("x-user-groups", "Bogus, ApiServiceRead")]) in
  result (run h (AzureApiAuthMiddleware {[ApiServiceRead]}) tt)
  = Left ResponseErrorForbiddenNoAuthorizationGroups.
Proof.
  apply (AzureApiAuthMiddleware_no_groups
           (requestOnly (headersOf [("x-user-id", "u");
                                    ("x-subscription-id", "s");
                                    ("x-user-groups", "Bogus, ApiServiceRead")]))
           {[ApiServiceRead]} tt).
  - header_present.
  - header_present.
  - right. exists "Bogus, ApiServiceRead". split; [reflexivity|].
    intros token Ht. vm_compute in Ht.
    apply elem_of_cons in Ht as [->|Ht];
      [|apply list_elem_of_singleton in Ht; subst token];
      (split; [reflexivity|]); simpl; intuition discriminate.
Defined.

(** The examples of the specification: a header with a known and an
    unknown group, and a header with a group that is not allowed. *)
Example AzureApiAuthMiddleware_examples :
  let hs groupsHeader :=
    requestOnly (headersOf [("x-user-id", "u"); ("x-subscription-id", "s");
                            ("x-user-groups", groupsHeader)]) in
  (result (run (hs "ApiServiceRead,Bogus")
               (AzureApiAuthMiddleware {[ApiServiceRead]}) tt)
   = Right {| groups := {[Member ApiServiceRead]};
              subscriptionId := "s"; userId := "u" |})
  /\
  (result (run (hs "ApiServiceWrite")
               (AzureApiAuthMiddleware {[ApiServiceRead]}) tt)
   = Left ResponseErrorForbiddenNotAuthorized).
Proof. cbv zeta. split; vm_compute; reflexivity. Qed.

(** An index that names a property inherited by the enumeration object is
    looked up to a defined value: a groups header made of such a token
    does not count as empty, and the value ends up among the groups. *)
Lemma AzureApiAuthMiddleware_inherited_property :
  let hs groupsHeader :=
    requestOnly (headersOf [("x-user-id", "u"); ("x-subscription-id", "s");
                            ("x-user-groups", groupsHeader)]) in
  result (run (hs "constructor") (AzureApiAuthMiddleware {[ApiServiceRead]}) tt)
  = Left ResponseErrorForbiddenNotAuthorized
  /\ exists identity,
      result (run (hs "ApiServiceRead,constructor")
                  (AzureApiAuthMiddleware {[ApiServiceRead]}) tt)
      = Right identity
      /\ Inherited "constructor" ∈ groups identity.
Proof.
  cbv zeta. split; [vm_compute; reflexivity|].
  eexists. split; [reflexivity|].
  simpl. apply elem_of_getGroupsFromHeader.
  exists "constructor". split; [|reflexivity].
  vm_compute. apply list_elem_of_In. simpl. auto.
Qed.

(** C4, as stated, fails on a request that carries groups but no user id
    and no subscription id: its parsed group set is not empty and holds
    none of the allowed groups, yet the middleware answers
    ForbiddenAnonymousUser, not ForbiddenNotAuthorized. *)
Lemma AzureApiAuthMiddleware_authorization_counterexample :
  let h := requestOnly (headersOf [("x-user-groups", "ApiServiceWrite")]) in
  let allowedGroups : gset UserGroup := {[ApiServiceRead]} in
  let out := run h (AzureApiAuthMiddleware allowedGroups) tt in
  request_header h "x-user-groups" = Some "ApiServiceWrite"
  /\ getGroupsFromHeader "ApiServiceWrite" <> ∅
  /\ heldAllowedGroups (getGroupsFromHeader "ApiServiceWrite") allowedGroups = ∅
  /\ result out = Left ResponseErrorForbiddenAnonymousUser
  /\ result out <> Left ResponseErrorForbiddenNotAuthorized.
Proof.
  cbv zeta. split; [reflexivity|]. split.
  { intros Hempty.
    assert (Member ApiServiceWrite ∈ getGroupsFromHeader "ApiServiceWrite") as Hin.
    { apply elem_of_getGroupsFromHeader. exists "ApiServiceWrite".
      split; [|reflexivity]. simpl. apply list_elem_of_singleton. reflexivity. }
    rewrite Hempty in Hin. set_solver. }
  split.
  { apply userHasAnyAllowedGroup_spec. vm_compute. reflexivity. }
  split; [reflexivity|]. vm_compute. discriminate.
Qed.

(** C4, amended. On a request whose x-user-id and x-subscription-id
    headers are present and not empty and whose parsed group set is not
    empty, the identity middleware fails with ForbiddenNotAuthorized if and
    only if the parsed groups hold none of the allowed ones; otherwise it
    succeeds, and the identity carries the whole parsed group set. *)
Theorem AzureApiAuthMiddleware_authorization
    {W} (h : Host W) (allowedGroups : gset UserGroup) (w : W)
    (groupsHeader : string) :
  ¬ missingOrEmpty (request_header h "x-user-id") ->
  ¬ missingOrEmpty (request_header h "x-subscription-id") ->
  request_header h "x-user-groups" = Some groupsHeader ->
  getGroupsFromHeader groupsHeader <> ∅ ->
  let parsed := getGroupsFromHeader groupsHeader in
  let out := run h (AzureApiAuthMiddleware allowedGroups) w in
  (result out = Left ResponseErrorForbiddenNotAuthorized <->
   heldAllowedGroups parsed allowedGroups = ∅)
  /\
  (heldAllowedGroups parsed allowedGroups <> ∅ ->
   exists userId subscriptionId,
     request_header h "x-user-id" = Some userId /\
     request_header h "x-subscription-id" = Some subscriptionId /\
     result out = Right {| groups := parsed;
                           subscriptionId := subscriptionId;
                           userId := userId |})
  /\
  (forall identity, result out = Right identity -> groups identity = parsed).
Proof.
  intros Hu Hs Hg Hne.
  auth_run h allowedGroups w.
  rewrite <- toNonEmptyString_None in Hu, Hs.
  destruct (toNonEmptyString (request_header h "x-user-id")) as [u|] eqn:Hu';
    [|congruence].
  destruct (toNonEmptyString (request_header h "x-subscription-id")) as [s|]
    eqn:Hs'; [|congruence].
  apply toNonEmptyString_Some in Hu' as [Hu' _].
  apply toNonEmptyString_Some in Hs' as [Hs' _].
  rewrite Hg, (maybeGroupsOf_parsed _ Hne).
  pose proof (userHasAnyAllowedGroup_spec
                (getGroupsFromHeader groupsHeader) allowedGroups) as Hspec.
  destruct (userHasAnyAllowedGroup (getGroupsFromHeader groupsHeader)
              allowedGroups).
  - repeat split.
    + discriminate.
    + intros Hheld. apply Hspec in Hheld. discriminate.
    + intros _. exists u, s. auto.
    + intros identity [= <-]. reflexivity.
  - repeat split.
    + intros _. apply Hspec. reflexivity.
    + intros Hheld. exfalso. apply Hheld, Hspec. reflexivity.
    + intros identity. discriminate.
Qed.

Lemma AzureApiAuthMiddleware_authorization_witness :
  let h := requestOnly (headersOf [("x-user-id", "u");
                                   ("x-subscription-id", "s");
                                   ("x-user-groups", "ApiServiceWrite")]) in
  result (run h (AzureApiAuthMiddleware {[ApiServiceRead]}) tt)
  = Left ResponseErrorForbiddenNotAuthorized <->
  heldAllowedGroups (getGroupsFromHeader "ApiServiceWrite") {[ApiServiceRead]} = ∅.
Proof.
  refine (proj1 (AzureApiAuthMiddleware_authorization
           (requestOnly (headersOf [("x-user-id", "u");
                                    ("x-subscription-id", "s");
                                    ("x-user-groups", "ApiServiceWrite")]))
           {[ApiServiceRead]} tt "ApiServiceWrite" _ _ _ _)).
  - header_present.
  - header_present.
  - reflexivity.
  - intros Hempty.
    assert (Member ApiServiceWrite ∈ getGroupsFromHeader "ApiServiceWrite") as Hin.
    { apply elem_of_getGroupsFromHeader. exists "ApiServiceWrite".
      split; [|reflexivity]. simpl. apply list_elem_of_singleton. reflexivity. }
    rewrite Hempty in Hin. set_solver.
Defined.

(** ** The combinator *)

Section Combinator.
Context {W R T : Type} (h : Host W).
Implicit Types (m : IRequestMiddleware R T).
Implicit Types (ms pre post : list (IRequestMiddleware R T)).

Lemma withRequestMiddlewares_cons m ms (w : W) :
  run h (withRequestMiddlewares (m :: ms)) w =
  let o1 := run h m w in
  match result o1 with
  | Left failure =>
      {| result := Left failure; world := world o1; calls := calls o1 |}
  | Right v =>
      let o2 := run h (withRequestMiddlewares ms) (world o1) in
      {| result := match result o2 with
                   | Left failure => Left failure
                   | Right vs => Right (v :: vs)
                   end;
         world := world o2;
         calls := calls o1 ++ calls o2 |}
  end.
Proof.
  cbn [withRequestMiddlewares]. rewrite run_bind. cbv zeta.
  destruct (result (run h m w)) as [failure|v]; simpl.
  - rewrite app_nil_r. reflexivity.
  - rewrite run_bind. cbv zeta.
    destruct (result (run h (withRequestMiddlewares ms) _)); simpl;
      rewrite app_nil_r; reflexivity.
Qed.

Lemma withRequestMiddlewares_success ms (w : W) vs w' cs :
  succeedAll h ms w vs w' cs ->
  run h (withRequestMiddlewares ms) w =
  {| result := Right vs; world := w'; calls := cs |}.
Proof.
  induction 1 as [w|m ms w v vs w' cs Hm _ IH].
  - reflexivity.
  - rewrite withRequestMiddlewares_cons. cbv zeta. rewrite Hm, IH. reflexivity.
Qed.

Lemma succeedAll_length ms (w : W) vs w' cs :
  succeedAll h ms w vs w' cs -> length vs = length ms.
Proof. induction 1; simpl; congruence. Qed.

Lemma withRequestMiddlewares_failure pre m post (w : W) vs w1 cs failure :
  succeedAll h pre w vs w1 cs ->
  result (run h m w1) = Left failure ->
  run h (withRequestMiddlewares (pre ++ m :: post)) w =
  {| result := Left failure;
     world := world (run h m w1);
     calls := cs ++ calls (run h m w1) |}.
Proof.
  intros Hpre Hm. induction Hpre as [w|m0 ms w v vs w' cs Hm0 _ IH].
  - simpl app. rewrite withRequestMiddlewares_cons. cbv zeta. rewrite Hm.
    reflexivity.
  - simpl app. rewrite withRequestMiddlewares_cons. cbv zeta.
    rewrite Hm0, (IH Hm). simpl. rewrite app_assoc. reflexivity.
Qed.

(** Every run of a list of middlewares is of one of the two kinds: all
    succeed, or there is a first one that fails. *)
Lemma succeedAll_or_first_failure ms (w : W) :
  (exists vs w' cs, succeedAll h ms w vs w' cs) \/
  (exists pre m post vs w1 cs failure,
     ms = pre ++ m :: post /\ succeedAll h pre w vs w1 cs /\
     result (run h m w1) = Left failure).
Proof.
  revert w. induction ms as [|m ms IH]; intros w.
  - left. exists [], w, []. auto with middlewares.
  - destruct (result (run h m w)) as [failure|v] eqn:Hm.
    + right. exists [], m, ms, [], w, [], failure.
      repeat split; [auto with middlewares | exact Hm].
    + destruct (IH (world (run h m w)))
        as [(vs & w' & cs & Hall)
           |(pre & m' & post & vs & w1 & cs & failure & -> & Hpre & Hfail)].
      * left. exists (v :: vs), w', (calls (run h m w) ++ cs).
        auto with middlewares.
      * right.
        exists (m :: pre), m', post, (v :: vs), w1,
               (calls (run h m w) ++ cs), failure.
        repeat split; [auto with middlewares | exact Hfail].
Qed.

(** C1. When a middleware of the list fails after all the ones before it
    succeeded, the combinator returns its failure as it is, and the state
    and the calls of the run are those of the middlewares up to it: the
    ones after it are not run. When all succeed, the combinator returns
    their values, one per middleware and in the order of the list. *)
Theorem withRequestMiddlewares_short_circuit ms (w : W) :
  (forall pre m post vs w1 cs failure,
     ms = pre ++ m :: post ->
     succeedAll h pre w vs w1 cs ->
     result (run h m w1) = Left failure ->
     run h (withRequestMiddlewares ms) w =
     {| result := Left failure;
        world := world (run h m w1);
        calls := cs ++ calls (run h m w1) |})
  /\
  (forall vs w' cs,
     succeedAll h ms w vs w' cs ->
     run h (withRequestMiddlewares ms) w =
     {| result := Right vs; world := w'; calls := cs |}
     /\ length vs = length ms).
Proof.
  split.
  - intros pre m post vs w1 cs failure -> Hpre Hm.
    by apply withRequestMiddlewares_failure with (vs := vs).
  - intros vs w' cs Hall. split.
    + by apply withRequestMiddlewares_success.
    + by apply succeedAll_length in Hall.
Qed.

End Combinator.

Lemma withRequestMiddlewares_short_circuit_witness :
  let m1 : IRequestMiddleware string Z := Ret (Right 1) in
  let m2 : IRequestMiddleware string Z :=
    v <- header "x-second" ;; Ret (Left "second failed") in
  let m3 : IRequestMiddleware string Z :=
    spy "third" (fun _ : unit => r <- findOneByServiceId "s" ;; Ret (Right 3)) tt in
  run (countingHost (headersOf [])) (withRequestMiddlewares [m1; m2; m3]) 0%nat =
  {| result := Left "second failed"; world := 0%nat;
     calls := [Header "x-second"] |}.
Proof.
  intros m1 m2 m3.
  exact (proj1 (withRequestMiddlewares_short_circuit
                  (countingHost (headersOf [])) [m1; m2; m3] 0%nat)
           [m1] m2 [m3] [1] 0%nat [] "second failed" eq_refl
           (succeedAll_cons (countingHost (headersOf [])) m1 [] 0%nat 1 []
              0%nat [] eq_refl (succeedAll_nil _ 0%nat))
           eq_refl).
Defined.

(** The third middleware does run, and reaches the service model, once
    the second one succeeds. *)
Example withRequestMiddlewares_runs_all :
  let m1 : IRequestMiddleware string Z := Ret (Right 1) in
  let m2 : IRequestMiddleware string Z :=
    v <- header "x-second" ;; Ret (Right 2) in
  let m3 : IRequestMiddleware string Z :=
    spy "third" (fun _ : unit => r <- findOneByServiceId "s" ;; Ret (Right 3)) tt in
  run (countingHost (headersOf [])) (withRequestMiddlewares [m1; m2; m3]) 0%nat =
  {| result := Right [1; 2; 3]; world := 1%nat;
     calls := [Header "x-second"; Invoke "third"; FindOneByServiceId "s"] |}.
Proof. reflexivity. Qed.

(** ** The source-IP gate *)

Section Gate.
Context `{RangeCheck} {W A T : Type} (h : Host W).

Lemma gate_condition (clientIp : ClientIp) (cidrs : gset string) :
  (size cidrs =? 0)%nat || existsb (inRange clientIp) (elements cidrs) = true
  <->
  cidrs = ∅ \/ exists cidr, cidr ∈ cidrs /\ inRange clientIp cidr = true.
Proof.
  rewrite orb_true_iff, Nat.eqb_eq, existsb_exists. split.
  - intros [Hsize|(cidr & Hin & Hr)].
    + left. by apply leibniz_equiv, size_empty_iff.
    + right. exists cidr. split; [|exact Hr].
      by apply elem_of_elements, list_elem_of_In.
  - intros [->|(cidr & Hin & Hr)].
    + left. apply size_empty.
    + right. exists cidr. split; [|exact Hr].
      by apply list_elem_of_In, elem_of_elements.
Qed.

(** C2. With a spy around the wrapped handler: the gate behaves as the
    handler when the set of authorized CIDRs is empty; when the set is not
    empty the handler is called if and only if the client address lies in
    one of the ranges of the set, and then the gate behaves as the
    handler; on a mismatch the gate answers ForbiddenNotAuthorized, calls
    nothing and leaves the state as it is. *)
Theorem checkSourceIpForHandler_gate
    (handler : A -> Prog (IResponse T))
    (extractor : A -> ClientIp * gset string) (args : A) (w : W) :
  let clientIp := fst (extractor args) in
  let cidrs := snd (extractor args) in
  let spied := spy "handler" handler in
  let matches := exists cidr, cidr ∈ cidrs /\ inRange clientIp cidr = true in
  let out := run h (checkSourceIpForHandler spied extractor args) w in
  (cidrs = ∅ -> out = run h (spied args) w)
  /\ (cidrs <> ∅ -> (Invoke "handler" ∈ calls out <-> matches))
  /\ (matches -> out = run h (spied args) w)
  /\ (cidrs <> ∅ -> ¬ matches ->
      out = {| result := ResponseError ResponseErrorForbiddenNotAuthorized;
               world := w; calls := [] |}).
Proof.
  cbv zeta. unfold checkSourceIpForHandler.
  pose proof (gate_condition (fst (extractor args)) (snd (extractor args)))
    as Hcond.
  assert (Invoke "handler" ∈ calls (run h (spy "handler" handler args) w))
    as Hspied.
  { unfold spy. simpl. apply list_elem_of_here. }
  destruct ((size (snd (extractor args)) =? 0)%nat
            || existsb (inRange (fst (extractor args)))
                 (elements (snd (extractor args)))) eqn:Hgo.
  - split; [auto|]. split; [|split; [auto|]].
    + intros Hne. split; [|auto].
      intros _. destruct (proj1 Hcond eq_refl) as [Hempty|Hm];
        [contradiction | exact Hm].
    + intros Hne Hno. destruct (proj1 Hcond eq_refl) as [Hempty|Hm];
        contradiction.
  - assert (snd (extractor args) <> ∅ /\
            ¬ exists cidr, cidr ∈ snd (extractor args) /\
                           inRange (fst (extractor args)) cidr = true)
      as [Hne Hno].
    { split; intros Hx; assert (false = true) as Habs
        by (apply Hcond; auto); discriminate. }
    split; [intros Hempty; contradiction|].
    split; [|split; [intros Hm; contradiction | auto]].
    intros _. split; [|intros Hm; contradiction].
    simpl. intros Hin. by apply elem_of_nil in Hin.
Qed.

End Gate.

Lemma checkSourceIpForHandler_gate_witness :
  let handler (_ : unit) : Prog (IResponse Z) :=
    r <- findOneByServiceId "s" ;; Ret (ResponseSuccessJson 1) in
  run (countingHost (headersOf []))
      (checkSourceIpForHandler (H := ipv4RangeCheck) (spy "handler" handler)
         (fun _ => ("10.0.1.5", {["10.0.0.0/24"]})) tt) 0%nat
  = {| result := ResponseError ResponseErrorForbiddenNotAuthorized;
       world := 0%nat; calls := [] |}.
Proof.
  cbv zeta.
  refine (proj2 (proj2 (proj2 (checkSourceIpForHandler_gate
            (H := ipv4RangeCheck) (countingHost (headersOf []))
            (fun _ : unit => r <- findOneByServiceId "s" ;;
                             Ret (ResponseSuccessJson 1))
            (fun _ => ("10.0.1.5", {["10.0.0.0/24"]})) tt 0%nat))) _ _).
  - simpl. apply non_empty_singleton_L.
  - simpl. intros (cidr & Hin & Hr).
    apply elem_of_singleton in Hin. subst cidr. vm_compute in Hr. discriminate.
Defined.

(** The gate on the examples of the specification: no range, and an
    address inside the range. *)
Example checkSourceIpForHandler_allows :
  let handler (_ : unit) : Prog (IResponse Z) :=
    r <- findOneByServiceId "s" ;; Ret (ResponseSuccessJson 1) in
  let allowed :=
    {| result := ResponseSuccessJson 1; world := 1%nat;
       calls := [Invoke "handler"; FindOneByServiceId "s"] |} in
  run (countingHost (headersOf []))
      (checkSourceIpForHandler (H := ipv4RangeCheck) (spy "handler" handler)
         (fun _ => ("10.0.0.5", {["10.0.0.0/24"]})) tt) 0%nat = allowed
  /\
  run (countingHost (headersOf []))
      (checkSourceIpForHandler (H := ipv4RangeCheck) (spy "handler" handler)
         (fun _ => ("192.168.7.9", ∅)) tt) 0%nat = allowed.
Proof. split; vm_compute; reflexivity. Qed.

(** ** The service-attributes middleware *)

Section Attributes.
Context `{ApiDefinitions} {W : Type} (h : Host W).

Lemma toEmailString_None (v : option string) :
  missingOrEmpty v -> toEmailString v = None.
Proof.
  intros Hv. unfold toEmailString.
  apply toNonEmptyString_None in Hv. rewrite Hv. reflexivity.
Qed.

Lemma toEmailString_Some (v : option string) (e : string) :
  toEmailString v = Some e <->
  v = Some e /\ e <> "" /\ EmailString_is e = true.
Proof.
  unfold toEmailString.
  destruct (toNonEmptyString v) as [s|] eqn:Hs; simpl.
  - apply toNonEmptyString_Some in Hs as [-> Hne].
    destruct (EmailString_is s) eqn:He.
    + split; [intros [= <-]; auto|]. intros ([= <-] & _ & _). reflexivity.
    + split; [discriminate|]. intros ([= <-] & _ & He'). congruence.
  - split; [discriminate|]. intros (-> & Hne & _).
    assert (toNonEmptyString (Some e) = Some e) as Habs
      by (apply toNonEmptyString_Some; auto).
    congruence.
Qed.

(** Rebuilding the set of recipients from its members gives the set. *)
Lemma withRecipientsSet_same (s : IRetrievedService) :
  withRecipientsSet s = s.
Proof.
  destruct s. unfold withRecipientsSet. simpl.
  by rewrite list_to_set_elements_L.
Qed.

Lemma AzureUserAttributesMiddleware_run (w : W) :
  run h AzureUserAttributesMiddleware w =
  match toEmailString (request_header h "x-user-email") with
  | None =>
      {| result := Left (ResponseErrorInternal
                           "Missing, empty or invalid x-user-email header");
         world := w;
         calls := [Header "x-user-email"] |}
  | Some userEmail =>
      match toNonEmptyString (request_header h "x-subscription-id") with
      | None =>
          {| result := Left (ResponseErrorInternal
                               "Missing or empty x-subscription-id header");
             world := w;
             calls := [Header "x-user-email"; Header "x-subscription-id"] |}
      | Some subscriptionId =>
          let lookup := model_findOneByServiceId h subscriptionId w in
          {| result :=
               match fst lookup with
               | Left error =>
                   Left (ResponseErrorQuery
                     "Error while retrieving the service tied to the provided subscription id"
                     error)
               | Right maybeService =>
                   Right {| email := userEmail;
                            service := withRecipientsSet <$> maybeService |}
               end;
             world := snd lookup;
             calls := [Header "x-user-email"; Header "x-subscription-id";
                       FindOneByServiceId subscriptionId] |}
      end
  end.
Proof.
  unfold AzureUserAttributesMiddleware. simpl.
  destruct (toEmailString (request_header h "x-user-email")); simpl; auto.
  destruct (toNonEmptyString (request_header h "x-subscription-id")); simpl; auto.
  destruct (model_findOneByServiceId h _ w) as [[error|maybeService] w'];
    reflexivity.
Qed.

(** C6. The first call of the service-attributes middleware is the read of
    the x-user-email header, and the x-subscription-id header is read
    right after it or not at all; when the x-user-email header is missing
    or empty, the middleware fails with an internal error after this one
    read: the service model is not called and its state is untouched. *)
Theorem AzureUserAttributesMiddleware_email_first (w : W) :
  let out := run h AzureUserAttributesMiddleware w in
  (calls out = [Header "x-user-email"] \/
   exists rest,
     calls out = Header "x-user-email" :: Header "x-subscription-id" :: rest /\
     (Header "x-user-email" ∉ rest) /\ (Header "x-subscription-id" ∉ rest))
  /\
  (missingOrEmpty (request_header h "x-user-email") ->
   (exists detail, result out = Left (ResponseErrorInternal detail))
   /\ calls out = [Header "x-user-email"]
   /\ (forall i, FindOneByServiceId i ∉ calls out)
   /\ world out = w).
Proof.
  cbv zeta. rewrite AzureUserAttributesMiddleware_run. split.
  - destruct (toEmailString _); [|left; reflexivity].
    right. destruct (toNonEmptyString _); simpl.
    + eexists. split; [reflexivity|].
      split; intros Hin; apply list_elem_of_singleton in Hin; discriminate.
    + exists []. split; [reflexivity|]. split; apply not_elem_of_nil.
  - intros Hmiss. rewrite (toEmailString_None _ Hmiss). simpl.
    split; [eexists; reflexivity|]. split; [reflexivity|].
    split; [|reflexivity].
    intros i Hin. apply list_elem_of_singleton in Hin. discriminate.
Qed.

(** C7. With a valid email header and a subscription id that is not
    empty, the middleware looks the service up by the subscription id:
    when the lookup finds no service, it succeeds with no service; it
    fails with a query error exactly when the lookup fails, and then with
    the error of the lookup. *)
Theorem AzureUserAttributesMiddleware_lookup
    (w : W) (userEmail subscription : string) :
  request_header h "x-user-email" = Some userEmail ->
  userEmail <> "" -> EmailString_is userEmail = true ->
  request_header h "x-subscription-id" = Some subscription ->
  subscription <> "" ->
  let lookup := fst (model_findOneByServiceId h subscription w) in
  let out := run h AzureUserAttributesMiddleware w in
  (lookup = Right None ->
   result out = Right {| email := userEmail; service := None |})
  /\
  ((exists detail error, result out = Left (ResponseErrorQuery detail error))
   <-> isLeft lookup = true)
  /\
  (forall error, lookup = Left error ->
   exists detail, result out = Left (ResponseErrorQuery detail error))
  /\
  (forall retrieved, lookup = Right (Some retrieved) ->
   result out = Right {| email := userEmail; service := Some retrieved |})
  /\
  (isLeft (result out) = isLeft lookup)
  /\
  calls out = [Header "x-user-email"; Header "x-subscription-id";
               FindOneByServiceId subscription].
Proof.
  intros He Hne Hvalid Hs Hsne. cbv zeta.
  rewrite AzureUserAttributesMiddleware_run.
  assert (toEmailString (request_header h "x-user-email") = Some userEmail)
    as -> by (apply toEmailString_Some; auto).
  assert (toNonEmptyString (request_header h "x-subscription-id")
          = Some subscription) as -> by (apply toNonEmptyString_Some; auto).
  simpl.
  destruct (fst (model_findOneByServiceId h subscription w))
    as [error|maybeService]; simpl.
  - split; [discriminate|]. split; [split; eauto|].
    split; [|split; [discriminate | auto]].
    intros error' [= <-]. eauto.
  - split; [intros [= ->]; reflexivity|].
    split; [split; [intros (? & ? & ?); discriminate | discriminate]|].
    split; [discriminate|]. split; [|auto].
    intros retrieved [= ->]. simpl. rewrite withRecipientsSet_same.
    reflexivity.
Qed.

End Attributes.

Lemma AzureUserAttributesMiddleware_email_first_witness :
  let out := run (countingHost (headersOf [("x-user-email", "");
                                           ("x-subscription-id", "s")]))
                 (AzureUserAttributesMiddleware (H := sampleDefinitions)) 0%nat in
  (exists detail, result out = Left (ResponseErrorInternal detail))
  /\ calls out = [Header "x-user-email"]
  /\ (forall i, FindOneByServiceId i ∉ calls out)
  /\ world out = 0%nat.
Proof.
  apply (proj2 (AzureUserAttributesMiddleware_email_first
                  (H := sampleDefinitions)
                  (countingHost (headersOf [("x-user-email", "");
                                            ("x-subscription-id", "s")]))
                  0%nat)).
  right. reflexivity.
Defined.

Lemma AzureUserAttributesMiddleware_lookup_witness :
  result (run (countingHost (headersOf [("x-subscription-id", "MySubscriptionId");
                                        ("x-user-email", "test@example.com")]))
              (AzureUserAttributesMiddleware (H := sampleDefinitions)) 0%nat)
  = Right {| email := "test@example.com"; service := None |}.
Proof.
  refine (proj1 (AzureUserAttributesMiddleware_lookup
           (H := sampleDefinitions)
           (countingHost (headersOf [("x-subscription-id", "MySubscriptionId");
                                     ("x-user-email", "test@example.com")]))
           0%nat "test@example.com" "MySubscriptionId" _ _ _ _ _) _);
    try reflexivity; discriminate.
Defined.

(** The tests of the middleware: an invalid email fails after one read,
    and a failing lookup is a query error. *)
Example AzureUserAttributesMiddleware_tests :
  let failing (hs : string -> option string) : Host unit :=
    {| request_header := hs;
       request_body := BodyOther;
       model_findOneByServiceId := fun _ w => (Left "error", w);
       model_create := fun _ _ w => (Left "error", w);
       model_update := fun _ _ _ w => (Left "error", w) |} in
  let out1 := run (failing (headersOf [("x-user-email", "xyz")]))
                  (AzureUserAttributesMiddleware (H := sampleDefinitions)) tt in
  let out2 := run (failing (headersOf [("x-subscription-id", "MySubscriptionId");
                                       ("x-user-email", "test@example.com")]))
                  (AzureUserAttributesMiddleware (H := sampleDefinitions)) tt in
  (kind <$> match result out1 with Left e => Some e | Right _ => None end)
    = Some "IResponseErrorInternal"
  /\ calls out1 = [Header "x-user-email"]
  /\ (kind <$> match result out2 with Left e => Some e | Right _ => None end)
    = Some "IResponseErrorQuery"
  /\ calls out2 = [Header "x-user-email"; Header "x-subscription-id";
                   FindOneByServiceId "MySubscriptionId"].
Proof. repeat split. Qed.

(** ** The services controller *)

Section Services.
Context `{ApiDefinitions} {W : Type} (h : Host W).

Lemma filter_accepted (p : string -> bool) (l : list string) (X : gset string) :
  forallb p l = true -> X = list_to_set l ->
  forall x, x ∈ List.filter p (elements X) <-> x ∈ l.
Proof.
  intros Hall -> x.
  rewrite list_elem_of_In, filter_In, <- list_elem_of_In,
    elem_of_elements, elem_of_list_to_set.
  split; [tauto|]. intros Hx. split; [exact Hx|].
  rewrite forallb_forall in Hall. by apply Hall, list_elem_of_In.
Qed.

Lemma Service_is_lists (o : Service) :
  Service_is o = true ->
  forallb CIDR_is (authorized_cidrs o) = true /\
  forallb FiscalCode_is (authorized_recipients o) = true.
Proof.
  unfold Service_is. rewrite !andb_true_iff. tauto.
Qed.

(** C8. A valid public payload goes through the payload middleware, and
    when the service it yields is stored with its two sets as they are
    and converted back to the public form, the authorized CIDRs and the
    authorized recipients have the members of the payload, whatever the
    order and the repetitions. *)
Theorem service_payload_round_trip (w : W) (payload : Service) :
  request_body h = BodyObject payload ->
  Service_is payload = true ->
  exists servicePayload : IService,
    result (run h ServicePayloadMiddleware w) = Right servicePayload /\
    forall stored : IRetrievedService,
      rs_authorizedCIDRs stored = authorizedCIDRs servicePayload ->
      rs_authorizedRecipients stored = authorizedRecipients servicePayload ->
      let public := retrievedServiceToPublic stored in
      (list_to_set (authorized_cidrs public) : gset string)
        = list_to_set (authorized_cidrs payload)
      /\ (list_to_set (authorized_recipients public) : gset string)
        = list_to_set (authorized_recipients payload)
      /\ (forall x, x ∈ authorized_cidrs public <-> x ∈ authorized_cidrs payload)
      /\ (forall x, x ∈ authorized_recipients public <->
                    x ∈ authorized_recipients payload).
Proof.
  intros Hbody Hvalid.
  destruct (Service_is_lists payload Hvalid) as [Hcidrs Hrecipients].
  unfold ServicePayloadMiddleware. simpl. rewrite Hbody, Hvalid. simpl.
  eexists. split; [reflexivity|].
  intros stored Hc Hr. simpl in Hc, Hr. cbv zeta.
  unfold retrievedServiceToPublic; simpl.
  pose proof (filter_accepted _ _ _ Hcidrs Hc) as Hmc.
  pose proof (filter_accepted _ _ _ Hrecipients Hr) as Hmr.
  repeat split; try apply Hmc; try apply Hmr.
  - apply set_eq. intros x. rewrite !elem_of_list_to_set. apply Hmc.
  - apply set_eq. intros x. rewrite !elem_of_list_to_set. apply Hmr.
Qed.

(** C10. The answer of the get handler follows the outcome of the
    lookup: a query error when the lookup fails, not found when it finds
    nothing, and the public form of the service when it finds one; there is
    no other answer. The handler makes this one call, a read, and leaves
    the state as the lookup left it. *)
Theorem GetServiceHandler_responses
    (auth : IAzureApiAuthorization) (clientIp : ClientIp)
    (userAttributes : IAzureUserAttributes) (service_id_param : string) (w : W) :
  let lookup := fst (model_findOneByServiceId h service_id_param w) in
  let out := run h (GetServiceHandler auth clientIp userAttributes
                      service_id_param) w in
  (responseKind (result out) = "IResponseErrorQuery" <-> isLeft lookup = true)
  /\ (forall error, lookup = Left error ->
      result out = ResponseError (ResponseErrorQuery
                     "Error while retrieving the service" error))
  /\ (responseKind (result out) = "IResponseErrorNotFound" <-> lookup = Right None)
  /\ (forall public, result out = ResponseSuccessJson public <->
      exists retrieved, lookup = Right (Some retrieved) /\
                        public = retrievedServiceToPublic retrieved)
  /\ (responseKind (result out) = "IResponseErrorQuery"
      \/ responseKind (result out) = "IResponseErrorNotFound"
      \/ responseKind (result out) = "IResponseSuccessJson")
  /\ calls out = [FindOneByServiceId service_id_param]
  /\ Forall (fun o => isWrite o = false) (calls out)
  /\ world out = snd (model_findOneByServiceId h service_id_param w).
Proof.
  cbv zeta. unfold GetServiceHandler. simpl.
  destruct (model_findOneByServiceId h service_id_param w)
    as [[error|[retrieved|]] w']; simpl.
  - split; [tauto|]. split; [intros e [= <-]; reflexivity|].
    split; [split; discriminate|].
    split; [intros p; split; [discriminate | intros (? & ? & _); discriminate]|].
    split; [auto|]. split; [reflexivity|]. split; [|reflexivity].
    repeat constructor.
  - split; [split; discriminate|]. split; [discriminate|].
    split; [split; discriminate|].
    split.
    { intros p. split.
      - intros [= <-]. eauto.
      - intros (r & [= <-] & ->). reflexivity. }
    split; [auto|]. split; [reflexivity|]. split; [|reflexivity].
    repeat constructor.
  - split; [split; discriminate|]. split; [discriminate|].
    split; [tauto|].
    split; [intros p; split; [discriminate | intros (? & ? & _); discriminate]|].
    split; [auto|]. split; [reflexivity|]. split; [|reflexivity].
    repeat constructor.
Qed.

End Services.

Lemma service_payload_round_trip_witness :
  exists servicePayload : IService,
    result (run (bodyHost (BodyObject samplePayload))
                (ServicePayloadMiddleware (H := sampleDefinitions)) 0%nat)
    = Right servicePayload /\
    forall stored : IRetrievedService,
      rs_authorizedCIDRs stored = authorizedCIDRs servicePayload ->
      rs_authorizedRecipients stored = authorizedRecipients servicePayload ->
      let public := retrievedServiceToPublic (H := sampleDefinitions) stored in
      (list_to_set (authorized_cidrs public) : gset string)
        = list_to_set (authorized_cidrs samplePayload)
      /\ (list_to_set (authorized_recipients public) : gset string)
        = list_to_set (authorized_recipients samplePayload)
      /\ (forall x, x ∈ authorized_cidrs public <->
                    x ∈ authorized_cidrs samplePayload)
      /\ (forall x, x ∈ authorized_recipients public <->
                    x ∈ authorized_recipients samplePayload).
Proof.
  apply (service_payload_round_trip (H := sampleDefinitions)
           (bodyHost (BodyObject samplePayload)) 0%nat samplePayload).
  - reflexivity.
  - vm_compute. reflexivity.
Defined.

Lemma GetServiceHandler_responses_witness :
  responseKind
    (result (run (bodyHost BodyOther)
               (GetServiceHandler (H := sampleDefinitions) sampleAuthorization
                  "10.0.0.5" sampleAttributes "serviceId") 0%nat))
  = "IResponseErrorNotFound".
Proof.
  apply (proj2 (proj1 (proj2 (proj2
           (GetServiceHandler_responses (H := sampleDefinitions)
              (bodyHost BodyOther) sampleAuthorization "10.0.0.5"
              sampleAttributes "serviceId" 0%nat))))).
  reflexivity.
Defined.

(** A payload that is stored by the create handler of a storage that
    keeps what it is given comes back with the ranges and the recipients
    of the payload. *)
Example CreateServiceHandler_round_trip :
  let keeping : Host nat :=
    {| request_header := fun _ => None;
       request_body := BodyObject samplePayload;
       model_findOneByServiceId := fun _ n => (Right None, n);
       model_create := fun s _ n =>
         (Right {| rs_id := "doc-1"; rs_version := 0;
                   rs_authorizedCIDRs := authorizedCIDRs s;
                   rs_authorizedRecipients := authorizedRecipients s;
                   rs_departmentName := departmentName s;
                   rs_organizationName := organizationName s;
                   rs_serviceId := serviceId s;
                   rs_serviceName := serviceName s |}, S n);
       model_update := fun _ _ _ n => (Left "storage unavailable", n) |} in
  exists servicePayload public,
    result (run keeping (ServicePayloadMiddleware (H := sampleDefinitions)) 0%nat)
    = Right servicePayload
    /\ result (run keeping
                 (CreateServiceHandler (H := sampleDefinitions)
                    sampleAuthorization "10.0.0.5" sampleAttributes
                    servicePayload) 0%nat)
       = ResponseSuccessJson public
    /\ (list_to_set (authorized_cidrs public) : gset string)
       = {["10.0.0.0/24"; "192.168.1.1"]}
    /\ authorized_recipients public = ["AAABBB01C02D345E"].
Proof.
  cbv zeta. eexists. eexists.
  split; [reflexivity|]. split; [reflexivity|].
  split; [|vm_compute; reflexivity].
  apply set_eq. intros x. vm_compute authorized_cidrs.
  set_solver.
Qed.

(** * Further properties of the code *)

(** ** Groups of a header: [lib/utils/middlewares/azure_api_auth.ts] *)

Lemma split_not_nil (sep : ascii) (s : string) : split sep s <> [].
Proof.
  destruct s as [|c rest]; simpl; [discriminate|].
  destruct (Ascii.eqb c sep); [discriminate|].
  destruct (split sep rest); discriminate.
Qed.

(** Splitting two strings joined by the separator gives the tokens of the
    first, then the tokens of the second. *)
Lemma split_join (sep : ascii) (a b : string) :
  split sep (a ++ String sep b)%string = split sep a ++ split sep b.
Proof.
  induction a as [|c a IH]; simpl.
  - rewrite Ascii.eqb_refl. reflexivity.
  - destruct (Ascii.eqb c sep).
    + rewrite IH. reflexivity.
    + rewrite IH. pose proof (split_not_nil sep a) as Hne.
      destruct (split sep a) as [|tok toks]; [contradiction|]. reflexivity.
Qed.

(** X1. A member of the enumeration is among the groups of a header
    exactly when its name is one of the tokens between the commas of the
    header, as it is written there. *)
Theorem getGroupsFromHeader_member (groupsHeader : string) (g : UserGroup) :
  Member g ∈ getGroupsFromHeader groupsHeader <->
  UserGroup_name g ∈ split "," groupsHeader.
Proof.
  rewrite elem_of_getGroupsFromHeader. split.
  - intros (token & Hin & Hg). apply toUserGroup_Member in Hg. by subst token.
  - intros Hin. exists (UserGroup_name g). split; [exact Hin|].
    by apply toUserGroup_Member.
Qed.

Lemma getGroupsFromHeader_member_name (g : UserGroup) :
  Member g ∈ getGroupsFromHeader (UserGroup_name g).
Proof.
  apply elem_of_getGroupsFromHeader. exists (UserGroup_name g).
  split; [|by apply toUserGroup_Member].
  destruct g; simpl; apply list_elem_of_singleton; reflexivity.
Qed.

(** X2. The groups of two headers joined by a comma are the groups of the
    one and of the other: neither the order of the tokens of a header nor
    their repetition changes its groups. *)
Theorem getGroupsFromHeader_join (a b : string) :
  getGroupsFromHeader (a ++ "," ++ b)%string
  = getGroupsFromHeader a ∪ getGroupsFromHeader b
  /\ getGroupsFromHeader (a ++ "," ++ b)%string
     = getGroupsFromHeader (b ++ "," ++ a)%string
  /\ getGroupsFromHeader (a ++ "," ++ a)%string = getGroupsFromHeader a.
Proof.
  assert (forall x y : string,
            getGroupsFromHeader (x ++ "," ++ y)%string
            = getGroupsFromHeader x ∪ getGroupsFromHeader y) as Hjoin.
  { intros x y. unfold getGroupsFromHeader.
    change (x ++ "," ++ y)%string with (x ++ String "," y)%string.
    rewrite split_join, omap_app. apply list_to_set_app_L. }
  split; [apply Hjoin|]. split.
  - rewrite !Hjoin. apply (comm_L (∪)).
  - rewrite Hjoin. apply (idemp_L (∪)).
Qed.

(** The tokens the lookup resolves: the names of the members and the
    properties the enumeration object inherits. *)
Lemma toUserGroup_resolved (token : string) (v : GroupValue) :
  toUserGroup token = Some v ->
  In token (map UserGroup_name UserGroup_members ++ Object_prototype_keys).
Proof.
  unfold toUserGroup, UserGroup_index. intros Hv. apply in_or_app.
  destruct (UserGroup_own token) as [g|] eqn:Hown.
  - left. unfold UserGroup_own in Hown. apply find_some in Hown as [Hin Heq].
    apply String.eqb_eq in Heq. subst token. by apply in_map.
  - right. destruct (existsb _ _) eqn:Hex; [|discriminate].
    apply existsb_exists in Hex as (k & Hin & Heq).
    apply String.eqb_eq in Heq. by subst k.
Qed.

(** X3. The tokens of a header are not trimmed: a token that holds a
    space, such as the one that follows a comma and a space, is looked up
    to nothing. *)
Theorem toUserGroup_space (token : string) :
  containsChar " " token = true -> toUserGroup token = None.
Proof.
  intros Hspace. destruct (toUserGroup token) as [v|] eqn:Hv; [|reflexivity].
  apply toUserGroup_resolved in Hv.
  assert (forallb (fun name => negb (containsChar " " name))
            (map UserGroup_name UserGroup_members ++ Object_prototype_keys)
          = true) as Hnone by reflexivity.
  rewrite forallb_forall in Hnone. specialize (Hnone token Hv).
  rewrite Hspace in Hnone. discriminate.
Qed.

Lemma toUserGroup_space_witness : toUserGroup " ApiServiceWrite" = None.
Proof. apply (toUserGroup_space " ApiServiceWrite"). reflexivity. Defined.

(** ** The identity middleware on success and across allowed groups *)

Lemma userHasAnyAllowedGroup_true groups allowedGroups :
  userHasAnyAllowedGroup groups allowedGroups = true <->
  exists g, g ∈ allowedGroups /\ Member g ∈ groups.
Proof.
  unfold userHasAnyAllowedGroup. rewrite findIndex_found, existsb_exists.
  split; intros (g & Hin & Hg); exists g.
  - apply bool_decide_eq_true_1 in Hg.
    split; [by apply elem_of_elements, list_elem_of_In | exact Hg].
  - split; [by apply list_elem_of_In, elem_of_elements|].
    apply bool_decide_eq_true_2, Hg.
Qed.

(** What a success of the middleware tells about the three headers. *)
Lemma authResult_Right allowedGroups h_user h_subscription h_groups identity :
  authResult allowedGroups h_user h_subscription h_groups = Right identity ->
  h_user = Some (userId identity) /\ userId identity <> ""
  /\ h_subscription = Some (subscriptionId identity)
  /\ subscriptionId identity <> ""
  /\ (exists s, h_groups = Some s /\ s <> "" /\
                groups identity = getGroupsFromHeader s)
  /\ userHasAnyAllowedGroup (groups identity) allowedGroups = true.
Proof.
  unfold authResult.
  destruct (toNonEmptyString h_user) as [u|] eqn:Hu; [|discriminate].
  destruct (toNonEmptyString h_subscription) as [s|] eqn:Hs;
    [|discriminate].
  destruct (maybeGroupsOf h_groups) as [gs|] eqn:Hg; [|discriminate].
  destruct (userHasAnyAllowedGroup gs allowedGroups) eqn:Hany;
    [|discriminate].
  intros [= <-]. simpl.
  apply toNonEmptyString_Some in Hu as [-> Hune].
  apply toNonEmptyString_Some in Hs as [-> Hsne].
  apply maybeGroupsOf_Some in Hg as (hdr & -> & Hne & -> & _).
  repeat split; auto. exists hdr. auto.
Qed.

(** X4. An identity the middleware builds carries the x-user-id and the
    x-subscription-id of the request, neither of them empty, and the
    groups of the x-user-groups header, among which there is at least one
    of the allowed groups; the run read the three headers, in this
    order. *)
Theorem AzureApiAuthMiddleware_success
    {W} (h : Host W) (allowedGroups : gset UserGroup) (w : W)
    (identity : IAzureApiAuthorization) :
  let out := run h (AzureApiAuthMiddleware allowedGroups) w in
  result out = Right identity ->
  request_header h "x-user-id" = Some (userId identity)
  /\ userId identity <> ""
  /\ request_header h "x-subscription-id" = Some (subscriptionId identity)
  /\ subscriptionId identity <> ""
  /\ (exists s, request_header h "x-user-groups" = Some s /\
                groups identity = getGroupsFromHeader s)
  /\ (exists g, g ∈ allowedGroups /\ Member g ∈ groups identity)
  /\ calls out = authCalls_full.
Proof.
  destruct (AzureApiAuthMiddleware_run h allowedGroups w)
    as (Hres & _ & Hcalls).
  cbv zeta. rewrite Hres, Hcalls. intros Hok.
  apply authResult_Right in Hok
    as (Hu & Hune & Hs & Hsne & (hdr & Hg & _ & Hgs) & Hany).
  apply userHasAnyAllowedGroup_true in Hany.
  repeat split; auto.
  - exists hdr. auto.
  - rewrite Hu, Hs.
    assert (toNonEmptyString (Some (userId identity)) = Some (userId identity))
      as -> by (by apply toNonEmptyString_Some).
    assert (toNonEmptyString (Some (subscriptionId identity))
            = Some (subscriptionId identity))
      as -> by (by apply toNonEmptyString_Some).
    reflexivity.
Qed.

Lemma AzureApiAuthMiddleware_success_witness :
  exists g, g ∈ ({[ApiServiceRead]} : gset UserGroup) /\
            Member g ∈ getGroupsFromHeader "ApiServiceRead".
Proof.
  refine (proj1 (proj2 (proj2 (proj2 (proj2 (proj2
    (AzureApiAuthMiddleware_success
       (requestOnly (headersOf [("x-user-id", "u");
                                ("x-subscription-id", "s");
                                ("x-user-groups", "ApiServiceRead")]))
       {[ApiServiceRead]} tt
       {| groups := getGroupsFromHeader "ApiServiceRead";
          subscriptionId := "s"; userId := "u" |} _))))))).
  vm_compute. reflexivity.
Defined.

(** X5. With no allowed group, the middleware lets no request through:
    whatever the headers, it fails, and a request that carries an identity
    and groups is not authorized. *)
Theorem AzureApiAuthMiddleware_nothing_allowed {W} (h : Host W) (w : W) :
  let out := run h (AzureApiAuthMiddleware ∅) w in
  isRight (result out) = false
  /\ (¬ missingOrEmpty (request_header h "x-user-id") ->
      ¬ missingOrEmpty (request_header h "x-subscription-id") ->
      forall s, request_header h "x-user-groups" = Some s ->
                getGroupsFromHeader s <> ∅ ->
                result out = Left ResponseErrorForbiddenNotAuthorized).
Proof.
  auth_run h (∅ : gset UserGroup) w.
  assert (forall gs, userHasAnyAllowedGroup gs ∅ = false) as Hnone.
  { intros gs. apply not_true_iff_false. intros Hany.
    apply userHasAnyAllowedGroup_true in Hany as (g & Hin & _). set_solver. }
  split.
  - destruct (toNonEmptyString _); [|reflexivity].
    destruct (toNonEmptyString _); [|reflexivity].
    destruct (maybeGroupsOf _); [|reflexivity].
    rewrite Hnone. reflexivity.
  - intros Hu Hs s Hg Hne.
    rewrite <- toNonEmptyString_None in Hu, Hs.
    destruct (toNonEmptyString (request_header h "x-user-id"));
      [|congruence].
    destruct (toNonEmptyString (request_header h "x-subscription-id"));
      [|congruence].
    rewrite Hg, (maybeGroupsOf_parsed _ Hne), Hnone. reflexivity.
Qed.

Lemma AzureApiAuthMiddleware_nothing_allowed_witness :
  result (run (requestOnly (headersOf [("x-user-id", "u");
                                       ("x-subscription-id", "s");
                                       ("x-user-groups", "ApiServiceRead")]))
              (AzureApiAuthMiddleware ∅) tt)
  = Left ResponseErrorForbiddenNotAuthorized.
Proof.
  refine (proj2 (AzureApiAuthMiddleware_nothing_allowed
                   (requestOnly (headersOf [("x-user-id", "u");
                                            ("x-subscription-id", "s");
                                            ("x-user-groups", "ApiServiceRead")]))
                   tt) _ _ "ApiServiceRead" _ _).
  - header_present.
  - header_present.
  - reflexivity.
  - intros Hempty.
    assert (Member ApiServiceRead ∈ getGroupsFromHeader "ApiServiceRead")
      as Hin by (by apply getGroupsFromHeader_member_name).
    rewrite Hempty in Hin. set_solver.
Defined.

(** X6. Allowing more groups never turns a success into a failure: a
    request that passes with some allowed groups passes, with the same
    identity, with any larger set. The two other failures do not depend on
    the allowed groups at all. *)
Theorem AzureApiAuthMiddleware_allowed_monotone
    {W} (h : Host W) (allowedGroups allowedGroups' : gset UserGroup) (w : W) :
  let out := run h (AzureApiAuthMiddleware allowedGroups) w in
  let out' := run h (AzureApiAuthMiddleware allowedGroups') w in
  (allowedGroups ⊆ allowedGroups' ->
   forall identity, result out = Right identity -> result out' = Right identity)
  /\
  (forall failure, failure <> ResponseErrorForbiddenNotAuthorized ->
   result out = Left failure -> result out' = Left failure).
Proof.
  destruct (AzureApiAuthMiddleware_run h allowedGroups w) as (Hres & _ & _).
  destruct (AzureApiAuthMiddleware_run h allowedGroups' w) as (Hres' & _ & _).
  cbv zeta. rewrite Hres, Hres'. unfold authResult.
  destruct (toNonEmptyString (request_header h "x-user-id")) as [u|];
    [|split; [discriminate | auto]].
  destruct (toNonEmptyString (request_header h "x-subscription-id")) as [s|];
    [|split; [discriminate | auto]].
  destruct (maybeGroupsOf (request_header h "x-user-groups")) as [gs|];
    [|split; [discriminate | auto]].
  split.
  - intros Hsub identity.
    destruct (userHasAnyAllowedGroup gs allowedGroups) eqn:Hany;
      [|discriminate].
    apply userHasAnyAllowedGroup_true in Hany as (g & Hin & Hg).
    assert (userHasAnyAllowedGroup gs allowedGroups' = true) as ->.
    { apply userHasAnyAllowedGroup_true. exists g. split; [|exact Hg].
      by apply Hsub. }
    auto.
  - intros failure Hne.
    destruct (userHasAnyAllowedGroup gs allowedGroups); [discriminate|].
    intros [= <-]. contradiction.
Qed.

Lemma AzureApiAuthMiddleware_allowed_monotone_witness :
  let h := requestOnly (headersOf [("x-user-id", "u");
                                   ("x-subscription-id", "s");
                                   ("x-user-groups", "ApiServiceRead")]) in
  result (run h (AzureApiAuthMiddleware {[ApiServiceRead; ApiServiceWrite]}) tt)
  = Right {| groups := getGroupsFromHeader "ApiServiceRead";
             subscriptionId := "s"; userId := "u" |}.
Proof.
  refine (proj1 (AzureApiAuthMiddleware_allowed_monotone
                   (requestOnly (headersOf [("x-user-id", "u");
                                            ("x-subscription-id", "s");
                                            ("x-user-groups", "ApiServiceRead")]))
                   {[ApiServiceRead]} {[ApiServiceRead; ApiServiceWrite]} tt)
            _ _ _).
  - set_solver.
  - vm_compute. reflexivity.
Defined.

Lemma toUserGroup_inherited (token : string) :
  In token Object_prototype_keys -> toUserGroup token = Some (Inherited token).
Proof.
  intros Hin. unfold toUserGroup, UserGroup_index.
  assert (forallb (fun k => match UserGroup_own k with
                            | None => true
                            | Some _ => false
                            end) Object_prototype_keys = true)
    as Hown by reflexivity.
  rewrite forallb_forall in Hown. specialize (Hown token Hin).
  destruct (UserGroup_own token); [discriminate|].
  assert (existsb (String.eqb token) Object_prototype_keys = true) as ->.
  { apply existsb_exists. exists token. split; [exact Hin|].
    apply String.eqb_refl. }
  reflexivity.
Qed.

(** X7. The lookup of a group indexes the enumeration object, so a token
    that names a property every object inherits, such as [constructor], is
    looked up to a value. On a request with an identity whose groups
    header holds such a token, the middleware does not answer
    ForbiddenNoAuthorizationGroups; the value is among the groups of the
    identity when the request passes, and the request is not authorized
    when the header names none of the allowed groups. *)
Theorem AzureApiAuthMiddleware_inherited_token
    {W} (h : Host W) (allowedGroups : gset UserGroup) (w : W)
    (groupsHeader token : string) :
  ¬ missingOrEmpty (request_header h "x-user-id") ->
  ¬ missingOrEmpty (request_header h "x-subscription-id") ->
  request_header h "x-user-groups" = Some groupsHeader ->
  token ∈ split "," groupsHeader ->
  In token Object_prototype_keys ->
  let out := run h (AzureApiAuthMiddleware allowedGroups) w in
  result out <> Left ResponseErrorForbiddenNoAuthorizationGroups
  /\ (forall identity, result out = Right identity ->
      Inherited token ∈ groups identity)
  /\ ((forall g, g ∈ allowedGroups ->
       UserGroup_name g ∉ split "," groupsHeader) ->
      result out = Left ResponseErrorForbiddenNotAuthorized).
Proof.
  intros Hu Hs Hg Htok Hkey.
  assert (Inherited token ∈ getGroupsFromHeader groupsHeader) as Hin.
  { apply elem_of_getGroupsFromHeader. exists token.
    split; [exact Htok | by apply toUserGroup_inherited]. }
  assert (getGroupsFromHeader groupsHeader <> ∅) as Hne.
  { intros Hempty. rewrite Hempty in Hin. set_solver. }
  auth_run h allowedGroups w.
  rewrite <- toNonEmptyString_None in Hu, Hs.
  destruct (toNonEmptyString (request_header h "x-user-id")); [|congruence].
  destruct (toNonEmptyString (request_header h "x-subscription-id"));
    [|congruence].
  rewrite Hg, (maybeGroupsOf_parsed _ Hne).
  destruct (userHasAnyAllowedGroup _ _) eqn:Hany.
  - split; [discriminate|]. split; [intros identity [= <-]; exact Hin|].
    intros Hnone.
    apply userHasAnyAllowedGroup_true in Hany as (g & Hg1 & Hg2).
    apply elem_of_getGroupsFromHeader in Hg2 as (name & Hname & Hv).
    apply toUserGroup_Member in Hv. subst name. by apply Hnone in Hg1.
  - split; [discriminate|]. split; [discriminate | auto].
Qed.

Lemma AzureApiAuthMiddleware_inherited_token_witness :
  result (run (requestOnly (headersOf [("x-user-id", "u");
                                       ("x-subscription-id", "s");
                                       ("x-user-groups", "toString,Bogus")]))
              (AzureApiAuthMiddleware {[ApiServiceRead]}) tt)
  <> Left ResponseErrorForbiddenNoAuthorizationGroups.
Proof.
  refine (proj1 (AzureApiAuthMiddleware_inherited_token
            (requestOnly (headersOf [("x-user-id", "u");
                                     ("x-subscription-id", "s");
                                     ("x-user-groups", "toString,Bogus")]))
            {[ApiServiceRead]} tt "toString,Bogus" "toString" _ _ _ _ _)).
  - header_present.
  - header_present.
  - reflexivity.
  - simpl. apply list_elem_of_here.
  - simpl. auto 10.
Defined.

(** ** The services controller: payloads and public forms *)

Section ServicesMore.
Context `{ApiDefinitions} {W : Type} (h : Host W).

(** X8. The payload middleware only reads the body of the request. It
    fails, with a validation error, exactly when the body is not a valid
    service; a service it yields has the four names of a body that passed
    the guard, and exactly its ranges and its recipients. *)
Theorem ServicePayloadMiddleware_outcomes (w : W) :
  let out := run h ServicePayloadMiddleware w in
  calls out = [Body] /\ world out = w
  /\ (result out = Left invalidServicePayload <->
      ¬ exists o, request_body h = BodyObject o /\ Service_is o = true)
  /\ (forall failure, result out = Left failure ->
      kind failure = "IResponseErrorValidation")
  /\ (forall servicePayload, result out = Right servicePayload ->
      exists o, request_body h = BodyObject o
         /\ Service_is o = true
         /\ departmentName servicePayload = department_name o
         /\ organizationName servicePayload = organization_name o
         /\ serviceId servicePayload = service_id o
         /\ serviceName servicePayload = service_name o
         /\ (forall x, x ∈ authorizedCIDRs servicePayload <->
                       x ∈ authorized_cidrs o)
         /\ (forall x, x ∈ authorizedRecipients servicePayload <->
                       x ∈ authorized_recipients o)).
Proof.
  cbv zeta. unfold ServicePayloadMiddleware. simpl.
  destruct (request_body h) as [o|] eqn:Hbody; simpl.
  - destruct (Service_is o) eqn:Hvalid; simpl.
    + split; [reflexivity|]. split; [reflexivity|].
      split; [split; [discriminate|]; intros Hno; exfalso; apply Hno; eauto|].
      split; [discriminate|].
      intros servicePayload [= <-].
      unfold toAuthorizedCIDRs, toAuthorizedRecipients. simpl.
      exists o. split; [reflexivity|]. split; [exact Hvalid|].
      do 4 (split; [reflexivity|]).
      split; intros x; apply elem_of_list_to_set.
    + split; [reflexivity|]. split; [reflexivity|].
      split; [split; [|reflexivity]|].
      { intros _ (o' & [= <-] & Ho'). congruence. }
      split; [intros failure [= <-]; reflexivity | discriminate].
  - split; [reflexivity|]. split; [reflexivity|].
    split; [split; [|reflexivity]|].
    { intros _ (o' & Ho' & _). discriminate. }
    split; [intros failure [= <-]; reflexivity | discriminate].
Qed.

Lemma elem_of_filter_elements (p : string -> bool) (X : gset string) x :
  x ∈ List.filter p (elements X) <-> x ∈ X /\ p x = true.
Proof.
  by rewrite list_elem_of_In, filter_In, <- list_elem_of_In, elem_of_elements.
Qed.

Lemma NoDup_filter_elements (p : string -> bool) (X : gset string) :
  NoDup (List.filter p (elements X)).
Proof.
  apply NoDup_ListNoDup, List.NoDup_filter, NoDup_ListNoDup, NoDup_elements.
Qed.

(** X9. The public form of a stored service never shows a range or a
    recipient that fails its guard: its lists hold, once each, the members
    of the stored sets that pass. It carries the document id and the
    version of the stored service. *)
Theorem retrievedServiceToPublic_guards (retrievedService : IRetrievedService) :
  let public := retrievedServiceToPublic retrievedService in
  (forall x, x ∈ authorized_cidrs public <->
             x ∈ rs_authorizedCIDRs retrievedService /\ CIDR_is x = true)
  /\ (forall x, x ∈ authorized_recipients public <->
                x ∈ rs_authorizedRecipients retrievedService /\
                FiscalCode_is x = true)
  /\ NoDup (authorized_cidrs public)
  /\ NoDup (authorized_recipients public)
  /\ id public = Some (rs_id retrievedService)
  /\ version public = Some (rs_version retrievedService).
Proof.
  cbv zeta.
  split; [intros x; apply elem_of_filter_elements|].
  split; [intros x; apply elem_of_filter_elements|].
  split; [apply NoDup_filter_elements|].
  split; [apply NoDup_filter_elements|].
  split; reflexivity.
Qed.

(** X10. When the public form of a stored service is posted back and
    passes the guard of the payload middleware, the service that comes
    out, stored under the same document id and version, has the public
    form one started from, up to the order of the two lists. *)
Theorem retrievedServiceToPublic_round_trip
    (w : W) (retrievedService : IRetrievedService) :
  request_body h = BodyObject (retrievedServiceToPublic retrievedService) ->
  Service_is (retrievedServiceToPublic retrievedService) = true ->
  exists servicePayload,
    result (run h ServicePayloadMiddleware w) = Right servicePayload /\
    let public := retrievedServiceToPublic retrievedService in
    let public' :=
      retrievedServiceToPublic
        (asStored (rs_id retrievedService) (rs_version retrievedService)
           servicePayload) in
    authorized_cidrs public' ≡ₚ authorized_cidrs public
    /\ authorized_recipients public' ≡ₚ authorized_recipients public
    /\ department_name public' = department_name public
    /\ organization_name public' = organization_name public
    /\ service_id public' = service_id public
    /\ service_name public' = service_name public
    /\ id public' = id public
    /\ version public' = version public.
Proof.
  intros Hbody Hvalid.
  unfold ServicePayloadMiddleware. simpl. rewrite Hbody, Hvalid. simpl.
  eexists. split; [reflexivity|]. cbv zeta.
  unfold retrievedServiceToPublic, asStored; simpl.
  unfold toAuthorizedCIDRs, toAuthorizedRecipients.
  assert (forall (p : string -> bool) (X : gset string),
            List.filter p (elements (list_to_set (C := gset string)
                                       (List.filter p (elements X))))
            ≡ₚ List.filter p (elements X)) as Hperm.
  { intros p X. apply NoDup_Permutation.
    - apply NoDup_filter_elements.
    - apply NoDup_filter_elements.
    - intros x.
      rewrite !list_elem_of_In, !filter_In, <- !list_elem_of_In,
        !elem_of_elements, elem_of_list_to_set, list_elem_of_In, filter_In,
        <- list_elem_of_In, elem_of_elements.
      tauto. }
  split; [apply Hperm|]. split; [apply Hperm|]. repeat split.
Qed.

End ServicesMore.

Lemma retrievedServiceToPublic_round_trip_witness :
  exists servicePayload,
    result (run (bodyHost (BodyObject
                   (retrievedServiceToPublic (H := sampleDefinitions)
                      sampleStored)))
              (ServicePayloadMiddleware (H := sampleDefinitions)) 0%nat)
    = Right servicePayload.
Proof.
  destruct (retrievedServiceToPublic_round_trip (H := sampleDefinitions)
              (bodyHost (BodyObject
                 (retrievedServiceToPublic (H := sampleDefinitions)
                    sampleStored)))
              0%nat sampleStored eq_refl)
    as (servicePayload & Hres & _); [vm_compute; reflexivity|].
  exists servicePayload. exact Hres.
Defined.

Lemma ServicePayloadMiddleware_outcomes_witness :
  result (run (bodyHost BodyOther)
              (ServicePayloadMiddleware (H := sampleDefinitions)) 0%nat)
  = Left invalidServicePayload.
Proof.
  apply (proj2 (proj1 (proj2 (proj2
           (ServicePayloadMiddleware_outcomes (H := sampleDefinitions)
              (bodyHost BodyOther) 0%nat))))).
  intros (o & Hbody & _). discriminate.
Defined.

(** ** The services controller: update and create *)

Section Handlers.
Context `{ApiDefinitions} {W : Type} (h : Host W).
Context (auth : IAzureApiAuthorization) (clientIp : ClientIp)
        (userAttributes : IAzureUserAttributes).

(** The run of the update handler, step by step. *)
Lemma UpdateServiceHandler_run
    (service_id_param : string) (serviceModelPayload : IService) (w : W) :
  run h (UpdateServiceHandler auth clientIp userAttributes service_id_param
           serviceModelPayload) w =
  if negb (String.eqb (serviceId serviceModelPayload) service_id_param)
  then {| result := ResponseError (ResponseErrorValidation
            "Error validating payload"
            "Value of `service_id` in the request body must match the value of `service_id` path parameter");
          world := w; calls := [] |}
  else
    let lookup := model_findOneByServiceId h service_id_param w in
    match fst lookup with
    | Left error =>
        {| result := ResponseError (ResponseErrorQuery
             "Error trying to retrieve existing service" error);
           world := snd lookup;
           calls := [FindOneByServiceId service_id_param] |}
    | Right None =>
        {| result := ResponseError (ResponseErrorNotFound
             "Error" "Could not find a service with the provided serviceId");
           world := snd lookup;
           calls := [FindOneByServiceId service_id_param] |}
    | Right (Some existingService) =>
        let f := fun currentService =>
          updatedService currentService serviceModelPayload service_id_param in
        let updated :=
          model_update h (rs_id existingService) (rs_serviceId existingService)
            f (snd lookup) in
        {| result :=
             match fst updated with
             | Left error =>
                 ResponseError (ResponseErrorQuery
                   "Error while updating the existing service" error)
             | Right None =>
                 ResponseError (ResponseErrorInternal
                   "Error while updating the existing service")
             | Right (Some u) => ResponseSuccessJson (retrievedServiceToPublic u)
             end;
           world := snd updated;
           calls := [FindOneByServiceId service_id_param;
                     Update (rs_id existingService)
                       (rs_serviceId existingService) f] |}
    end.
Proof.
  unfold UpdateServiceHandler.
  destruct (negb (String.eqb (serviceId serviceModelPayload) service_id_param));
    [reflexivity|].
  simpl.
  destruct (model_findOneByServiceId h service_id_param w)
    as [[error|[existingService|]] w1]; simpl; try reflexivity.
  destruct (model_update h _ _ _ w1) as [[error|[u|]] w2]; reflexivity.
Qed.

(** X11. When the service id of the payload is not the one of the path,
    the update handler answers a validation error at once: it calls
    nothing, neither the lookup nor the update, and the storage is as it
    was. *)
Theorem UpdateServiceHandler_mismatch
    (service_id_param : string) (serviceModelPayload : IService) (w : W) :
  serviceId serviceModelPayload <> service_id_param ->
  let out := run h (UpdateServiceHandler auth clientIp userAttributes
                      service_id_param serviceModelPayload) w in
  responseKind (result out) = "IResponseErrorValidation"
  /\ calls out = [] /\ world out = w.
Proof.
  intros Hne. cbv zeta. rewrite UpdateServiceHandler_run.
  apply String.eqb_neq in Hne. rewrite Hne. simpl. auto.
Qed.

(** X12. The update handler writes only after it found the service: there
    is a write among its calls exactly when the service id of the payload
    is the one of the path and the lookup finds a service. The write is
    then one update, addressed by the document id and the service id of
    the service found, and the handler never creates a document. *)
Theorem UpdateServiceHandler_writes
    (service_id_param : string) (serviceModelPayload : IService) (w : W) :
  let lookup := fst (model_findOneByServiceId h service_id_param w) in
  let out := run h (UpdateServiceHandler auth clientIp userAttributes
                      service_id_param serviceModelPayload) w in
  (existsb isWrite (calls out) = true <->
   serviceId serviceModelPayload = service_id_param /\
   exists existingService, lookup = Right (Some existingService))
  /\ (forall existingService,
      serviceId serviceModelPayload = service_id_param ->
      lookup = Right (Some existingService) ->
      calls out = [FindOneByServiceId service_id_param;
                   Update (rs_id existingService) (rs_serviceId existingService)
                     (updateOf serviceModelPayload service_id_param)])
  /\ (forall s pk, Create s pk ∉ calls out).
Proof.
  cbv zeta. rewrite UpdateServiceHandler_run.
  destruct (String.eqb_spec (serviceId serviceModelPayload) service_id_param)
    as [Heq|Hne]; simpl.
  - destruct (fst (model_findOneByServiceId h service_id_param w))
      as [error|[existingService|]]; simpl.
    + split; [split; [discriminate | intros (_ & e & ?); discriminate]|].
      split; [discriminate|].
      intros s pk Hin. apply list_elem_of_singleton in Hin. discriminate.
    + split; [split; [eauto | reflexivity]|].
      split; [intros e _ [= <-]; reflexivity|].
      intros s pk Hin.
      apply elem_of_cons in Hin as [?|Hin]; [discriminate|].
      apply list_elem_of_singleton in Hin. discriminate.
    + split; [split; [discriminate | intros (_ & e & ?); discriminate]|].
      split; [discriminate|].
      intros s pk Hin. apply list_elem_of_singleton in Hin. discriminate.
  - split; [split; [discriminate | intros [? _]; contradiction]|].
    split; [intros e ?; contradiction|].
    intros s pk Hin. by apply elem_of_nil in Hin.
Qed.

(** X13. The answer of the update handler, once the service ids agree,
    follows the lookup and then the update: a query error when either
    fails, not found when the lookup finds nothing, an internal error when
    the update yields no document, and otherwise the public form of the
    updated document. *)
Theorem UpdateServiceHandler_responses
    (service_id_param : string) (serviceModelPayload : IService) (w : W) :
  serviceId serviceModelPayload = service_id_param ->
  let lookup := model_findOneByServiceId h service_id_param w in
  let out := run h (UpdateServiceHandler auth clientIp userAttributes
                      service_id_param serviceModelPayload) w in
  (forall error, fst lookup = Left error ->
   result out = ResponseError (ResponseErrorQuery
                  "Error trying to retrieve existing service" error)
   /\ world out = snd lookup)
  /\ (fst lookup = Right None ->
      responseKind (result out) = "IResponseErrorNotFound"
      /\ world out = snd lookup)
  /\ (forall existingService, fst lookup = Right (Some existingService) ->
      let updated :=
        model_update h (rs_id existingService) (rs_serviceId existingService)
          (updateOf serviceModelPayload service_id_param) (snd lookup) in
      world out = snd updated
      /\ (forall error, fst updated = Left error ->
          result out = ResponseError (ResponseErrorQuery
                         "Error while updating the existing service" error))
      /\ (fst updated = Right None ->
          result out = ResponseError (ResponseErrorInternal
                         "Error while updating the existing service"))
      /\ (forall u, fst updated = Right (Some u) ->
          result out = ResponseSuccessJson (retrievedServiceToPublic u))).
Proof.
  intros Heq. cbv zeta. rewrite UpdateServiceHandler_run.
  apply String.eqb_eq in Heq. rewrite Heq. simpl.
  destruct (fst (model_findOneByServiceId h service_id_param w))
    as [error|[existingService|]]; simpl.
  - split; [intros e [= <-]; auto|]. split; discriminate.
  - split; [discriminate|]. split; [discriminate|].
    intros e [= <-]. unfold updateOf.
    destruct (fst (model_update h _ _ _ _)) as [error|[u|]]; simpl.
    + split; [reflexivity|]. split; [intros e [= <-]; reflexivity|].
      split; discriminate.
    + split; [reflexivity|]. split; [discriminate|].
      split; [discriminate|]. intros u' [= <-]. reflexivity.
    + split; [reflexivity|]. split; [discriminate|].
      split; [intros _; reflexivity | discriminate].
  - split; [discriminate|]. split; [auto | discriminate].
Qed.

(** X14. On a storage that applies the function of the update to the
    document it holds, an update answers the public form of a document
    that keeps the document id and the version of the existing one and
    takes everything else from the payload: the service id of the path,
    the names of the payload, and those of its ranges and recipients that
    pass their guards. *)
Theorem UpdateServiceHandler_replaces
    (service_id_param : string) (serviceModelPayload : IService) (w : W)
    (existingService : IRetrievedService) :
  serviceId serviceModelPayload = service_id_param ->
  let lookup := model_findOneByServiceId h service_id_param w in
  fst lookup = Right (Some existingService) ->
  fst (model_update h (rs_id existingService) (rs_serviceId existingService)
         (updateOf serviceModelPayload service_id_param) (snd lookup))
  = Right (Some (updateOf serviceModelPayload service_id_param
                   existingService)) ->
  exists public,
    result (run h (UpdateServiceHandler auth clientIp userAttributes
                     service_id_param serviceModelPayload) w)
    = ResponseSuccessJson public
    /\ id public = Some (rs_id existingService)
    /\ version public = Some (rs_version existingService)
    /\ service_id public = service_id_param
    /\ department_name public = departmentName serviceModelPayload
    /\ organization_name public = organizationName serviceModelPayload
    /\ service_name public = serviceName serviceModelPayload
    /\ (forall x, x ∈ authorized_cidrs public <->
                  x ∈ authorizedCIDRs serviceModelPayload /\ CIDR_is x = true)
    /\ (forall x, x ∈ authorized_recipients public <->
                  x ∈ authorizedRecipients serviceModelPayload /\
                  FiscalCode_is x = true).
Proof.
  intros Heq lookup Hfound Hupdated. subst lookup.
  rewrite UpdateServiceHandler_run.
  apply String.eqb_eq in Heq. rewrite Heq. simpl. rewrite Hfound.
  unfold updateOf in Hupdated. cbv zeta. rewrite Hupdated.
  eexists. split; [reflexivity|].
  unfold retrievedServiceToPublic, updatedService; simpl.
  do 6 (split; [reflexivity|]).
  split; intros x; apply elem_of_filter_elements.
Qed.

End Handlers.

Lemma UpdateServiceHandler_mismatch_witness :
  calls (run (storingHost BodyOther)
           (UpdateServiceHandler (H := sampleDefinitions) sampleAuthorization
              "10.0.0.5" sampleAttributes "otherService" sampleService)
           (Some sampleStored))
  = [].
Proof.
  apply (UpdateServiceHandler_mismatch (H := sampleDefinitions)
           (storingHost BodyOther) sampleAuthorization "10.0.0.5"
           sampleAttributes "otherService" sampleService (Some sampleStored)).
  discriminate.
Defined.

Lemma UpdateServiceHandler_writes_witness :
  calls (run (storingHost BodyOther)
           (UpdateServiceHandler (H := sampleDefinitions) sampleAuthorization
              "10.0.0.5" sampleAttributes "serviceId" sampleService)
           (Some sampleStored))
  = [FindOneByServiceId "serviceId";
     Update "doc-7" "serviceId" (updateOf sampleService "serviceId")].
Proof.
  apply (proj1 (proj2
           (UpdateServiceHandler_writes (H := sampleDefinitions)
              (storingHost BodyOther) sampleAuthorization "10.0.0.5"
              sampleAttributes "serviceId" sampleService (Some sampleStored)))
           sampleStored); reflexivity.
Defined.

Lemma UpdateServiceHandler_responses_witness :
  responseKind
    (result (run (storingHost BodyOther)
               (UpdateServiceHandler (H := sampleDefinitions)
                  sampleAuthorization "10.0.0.5" sampleAttributes
                  "serviceId" sampleService) None))
  = "IResponseErrorNotFound".
Proof.
  apply (proj1 (proj2
           (UpdateServiceHandler_responses (H := sampleDefinitions)
              (storingHost BodyOther) sampleAuthorization "10.0.0.5"
              sampleAttributes "serviceId" sampleService None eq_refl))).
  reflexivity.
Defined.

Lemma UpdateServiceHandler_replaces_witness :
  exists public,
    result (run (storingHost BodyOther)
              (UpdateServiceHandler (H := sampleDefinitions)
                 sampleAuthorization "10.0.0.5" sampleAttributes
                 "serviceId" sampleService) (Some sampleStored))
    = ResponseSuccessJson public
    /\ id public = Some "doc-7" /\ version public = Some 3
    /\ department_name public = "MyDept".
Proof.
  destruct (UpdateServiceHandler_replaces (H := sampleDefinitions)
              (storingHost BodyOther) sampleAuthorization "10.0.0.5"
              sampleAttributes "serviceId" sampleService (Some sampleStored)
              sampleStored eq_refl eq_refl eq_refl)
    as (public & Hres & Hid & Hversion & _ & Hdept & _).
  exists public. auto.
Defined.

Section Create.
Context `{ApiDefinitions} {W : Type} (h : Host W).
Context (auth : IAzureApiAuthorization) (clientIp : ClientIp)
        (userAttributes : IAzureUserAttributes).

(** X15. The create handler makes one call, the creation of the payload
    under its own service id as partition key, without any lookup before
    it: it answers the public form of the document the storage made, or a
    query error with the error of the storage. *)
Theorem CreateServiceHandler_responses
    (serviceModelPayload : IService) (w : W) :
  let created :=
    model_create h serviceModelPayload (serviceId serviceModelPayload) w in
  let out := run h (CreateServiceHandler auth clientIp userAttributes
                      serviceModelPayload) w in
  calls out = [Create serviceModelPayload (serviceId serviceModelPayload)]
  /\ world out = snd created
  /\ (forall i, FindOneByServiceId i ∉ calls out)
  /\ (forall document, fst created = Right document ->
      result out = ResponseSuccessJson (retrievedServiceToPublic document))
  /\ (forall error, fst created = Left error ->
      result out = ResponseError (ResponseErrorQuery "Error" error))
  /\ (responseKind (result out) = "IResponseSuccessJson" <->
      isRight (fst created) = true).
Proof.
  cbv zeta. unfold CreateServiceHandler. simpl.
  destruct (model_create h serviceModelPayload (serviceId serviceModelPayload) w)
    as [[error|document] w1]; simpl.
  - split; [reflexivity|]. split; [reflexivity|].
    split; [intros i Hin; apply list_elem_of_singleton in Hin; discriminate|].
    split; [discriminate|]. split; [intros e [= <-]; reflexivity|].
    split; discriminate.
  - split; [reflexivity|]. split; [reflexivity|].
    split; [intros i Hin; apply list_elem_of_singleton in Hin; discriminate|].
    split; [intros d [= <-]; reflexivity|]. split; [discriminate|].
    split; reflexivity.
Qed.

(** X16. From the body to the answer of a creation: a valid body goes
    through the payload middleware, and when the storage keeps the service
    it is given, under some document id and version, the create handler
    answers a public form with this id and version, the four names of the
    body, and the ranges and the recipients of the body, once each. *)
Theorem CreateServiceHandler_of_payload (w w1 : W) (payload : Service) :
  request_body h = BodyObject payload ->
  Service_is payload = true ->
  exists servicePayload,
    result (run h ServicePayloadMiddleware w) = Right servicePayload /\
    forall documentId documentVersion,
      fst (model_create h servicePayload (serviceId servicePayload) w1)
      = Right (asStored documentId documentVersion servicePayload) ->
      exists public,
        result (run h (CreateServiceHandler auth clientIp userAttributes
                         servicePayload) w1)
        = ResponseSuccessJson public
        /\ id public = Some documentId
        /\ version public = Some documentVersion
        /\ department_name public = department_name payload
        /\ organization_name public = organization_name payload
        /\ service_id public = service_id payload
        /\ service_name public = service_name payload
        /\ (forall x, x ∈ authorized_cidrs public <->
                      x ∈ authorized_cidrs payload)
        /\ (forall x, x ∈ authorized_recipients public <->
                      x ∈ authorized_recipients payload)
        /\ NoDup (authorized_cidrs public)
        /\ NoDup (authorized_recipients public).
Proof.
  intros Hbody Hvalid.
  destruct (Service_is_lists payload Hvalid) as [Hcidrs Hrecipients].
  unfold ServicePayloadMiddleware. simpl. rewrite Hbody, Hvalid. simpl.
  eexists. split; [reflexivity|].
  intros documentId documentVersion Hcreated.
  unfold CreateServiceHandler. simpl. simpl in Hcreated.
  destruct (model_create h _ _ w1) as [created w2]. simpl in Hcreated.
  subst created. simpl.
  eexists. split; [reflexivity|].
  unfold retrievedServiceToPublic, asStored; simpl.
  repeat split; auto;
    try (apply (filter_accepted _ _ _ Hcidrs eq_refl));
    try (apply (filter_accepted _ _ _ Hrecipients eq_refl));
    apply NoDup_filter_elements.
Qed.

End Create.

Lemma CreateServiceHandler_responses_witness :
  result (run (bodyHost BodyOther)
            (CreateServiceHandler (H := sampleDefinitions) sampleAuthorization
               "10.0.0.5" sampleAttributes sampleService) 0%nat)
  = ResponseError (ResponseErrorQuery "Error" "storage unavailable").
Proof.
  apply (proj1 (proj2 (proj2 (proj2 (proj2
           (CreateServiceHandler_responses (H := sampleDefinitions)
              (bodyHost BodyOther) sampleAuthorization "10.0.0.5"
              sampleAttributes sampleService 0%nat)))))).
  reflexivity.
Defined.

Lemma CreateServiceHandler_of_payload_witness :
  exists servicePayload,
    result (run (storingHost (BodyObject samplePayload))
              (ServicePayloadMiddleware (H := sampleDefinitions)) None)
    = Right servicePayload.
Proof.
  destruct (CreateServiceHandler_of_payload (H := sampleDefinitions)
              (storingHost (BodyObject samplePayload)) sampleAuthorization
              "10.0.0.5" sampleAttributes None None samplePayload eq_refl)
    as (servicePayload & Hres & _); [vm_compute; reflexivity|].
  exists servicePayload. exact Hres.
Defined.

(** ** Blob storage *)

Section Storage.
Context {B : Type}.




End Storage.

